(** * YT-Transcripter: the summarisation endpoint of [backend/app.py]

    A shallow embedding of the request pipeline of [backend/app.py]
    (identifier extraction, transcript retrieval with its language
    fallback, truncation, the summariser client and the response
    composer), followed by the properties stated about it.

    Conventions.
    - A Python [str] is a sequence of Unicode code points: [list N].
    - Python integers are [Z]; the one float of the endpoint
      ([readingTime]) is an IEEE-754 binary64 value, [spec_float].
    - External services (transcript provider, generative-language API,
      video metadata API) are oracles gathered in a [world]; every call
      is recorded in an event log that is threaded through the code, and
      Python exceptions are the error component of the monad [M]. *)

From Stdlib Require Import List ZArith NArith Bool Ascii String Lia.
From Corelib Require Import SpecFloat.
Import ListNotations.

(* ===================================================================== *)
(** * Python strings *)
(* ===================================================================== *)

Module PyStr.

Definition char := N.
Definition str := list char.

(** An ASCII literal of the source as a sequence of code points. *)
Definition lit (s : string) : str :=
  List.map N_of_ascii (list_ascii_of_string s).

Definition LF : char := 10%N.          (* "\n" *)
Definition TAB : char := 9%N.          (* "\t" *)
Definition SPACE : char := 32%N.       (* " " *)
Definition HYPHEN : char := 45%N.      (* "-" *)
Definition BULLET : char := 8226%N.    (* U+2022 *)

Definition char_eqb (a b : char) : bool := N.eqb a b.

Definition in_range (lo hi c : N) : bool := (N.leb lo c && N.leb c hi)%bool.

(** [Py_UNICODE_ISSPACE]: the characters [str.isspace], [str.strip()],
    [str.split()] and the pattern class [\s] (on [str] patterns) treat
    as whitespace. *)
Definition is_space (c : char) : bool :=
  in_range 9 13 c          (* \t \n \v \f \r *)
  || in_range 28 32 c      (* FS GS RS US, space *)
  || N.eqb c 133 || N.eqb c 160
  || N.eqb c 5760
  || in_range 8192 8202 c
  || N.eqb c 8232 || N.eqb c 8233 || N.eqb c 8239 || N.eqb c 8287
  || N.eqb c 12288.

(** [len(s)], of a string or of a list. *)
Definition len {A : Type} (s : list A) : Z := Z.of_nat (List.length s).

(** [s[:n]] for an integer [n] (a negative [n] counts from the end). *)
Definition slice_to (s : str) (n : Z) : str :=
  if (0 <=? n)%Z then firstn (Z.to_nat n) s
  else firstn (Z.to_nat (len s + n)) s.

(** [s.startswith(prefix)] *)
Fixpoint startswith (prefix s : str) : bool :=
  match prefix, s with
  | [], _ => true
  | p :: prefix', c :: s' => char_eqb p c && startswith prefix' s'
  | _ :: _, [] => false
  end.

(** [s.split(sep)] for a separator of one character. *)
Fixpoint split_on (sep : char) (s : str) : list str :=
  match s with
  | [] => [[]]
  | c :: s' =>
      if char_eqb c sep then [] :: split_on sep s'
      else match split_on sep s' with
           | [] => [[c]]
           | l :: ls => (c :: l) :: ls
           end
  end.

(** [sep.join(parts)] *)
Fixpoint join (sep : str) (parts : list str) : str :=
  match parts with
  | [] => []
  | [p] => p
  | p :: ps => p ++ sep ++ join sep ps
  end.

Fixpoint drop_while (f : char -> bool) (s : str) : str :=
  match s with
  | [] => []
  | c :: s' => if f c then drop_while f s' else s
  end.

(** [s.lstrip(chars)]: drops the leading characters that occur in
    [chars]. *)
Definition lstrip_chars (chars : str) (s : str) : str :=
  drop_while (fun c => existsb (char_eqb c) chars) s.

(** [s.lstrip()], [s.rstrip()], [s.strip()] *)
Definition lstrip (s : str) : str := drop_while is_space s.
Definition rstrip (s : str) : str := rev (drop_while is_space (rev s)).
Definition strip (s : str) : str := rstrip (lstrip s).

(** [s.split()]: the maximal runs of non-whitespace characters.
    [word] holds, reversed, the token being read ([[]] between
    tokens). *)
Fixpoint split_from (word : str) (s : str) : list str :=
  match s with
  | [] => match word with [] => [] | _ => [rev word] end
  | c :: s' =>
      if is_space c then
        match word with
        | [] => split_from [] s'
        | _ => rev word :: split_from [] s'
        end
      else split_from (c :: word) s'
  end.

Definition split (s : str) : list str := split_from [] s.

End PyStr.

Import PyStr.

(* ===================================================================== *)
(** * Identifier extractor and truncation (pure functions) *)
(* ===================================================================== *)

(** The class [[0-9A-Za-z_-]]. *)
Definition id_char (c : char) : bool :=
  in_range 48 57 c || in_range 65 90 c || in_range 97 122 c
  || N.eqb c 95 || N.eqb c 45.

Definition is_token (t : str) : bool :=
  Nat.eqb (List.length t) 11 && forallb id_char t.

(** The three patterns have one shape: a literal followed by the group
    [([0-9A-Za-z_-]{11})].  A pattern is represented by its literal. *)
Definition pattern := str.

(** The pattern matched at the very start of [s]; the captured group. *)
Definition match_at (pat : pattern) (s : str) : option str :=
  if startswith pat s then
    let tok := firstn 11 (skipn (List.length pat) s) in
    if is_token tok then Some tok else None
  else None.

(** [re.search(pat, s)]: the match at the leftmost position, group 1. *)
Fixpoint re_search (pat : pattern) (s : str) : option str :=
  match match_at pat s with
  | Some t => Some t
  | None => match s with
            | [] => None
            | _ :: s' => re_search pat s'
            end
  end.

Definition patterns : list pattern :=
  [ lit "v="; lit "youtu.be/"; lit "embed/" ].

(** The loop [for pat in patterns] of [extract_video_id]. *)
Fixpoint first_match (pats : list pattern) (url : str) : option str :=
  match pats with
  | [] => None
  | pat :: pats' =>
      match re_search pat url with
      | Some g => Some g
      | None => first_match pats' url
      end
  end.

Definition extract_video_id (url : str) : option str :=
  first_match patterns url.

Definition MAX_CHARS : Z := 4000.

Definition trim_to_char_limit (text : str) (max_chars : Z) : str :=
  if (len text <=? max_chars)%Z then text else slice_to text max_chars.

(* ===================================================================== *)
(** * Floating point: [int / int] and [round(x, ndigits)] *)
(* ===================================================================== *)

Module PyFloat.

(** binary64 *)
Definition prec : Z := 53.
Definition emax : Z := 1024.
Definition float := spec_float.

(** [float(z)], exact for [|z| < 2^53]. *)
Definition of_int (z : Z) : float := binary_normalize prec emax z 0 false.

(** [a / b] on integers with [b <> 0] (true division): the binary64
    value nearest to the quotient.  Stated through the conversion of
    both operands, hence for [|a|, |b| < 2^53]. *)
Definition truediv (a b : Z) : float :=
  SFdiv prec emax (of_int a) (of_int b).

(** The integer nearest to [p / 2^k], ties to the even one. *)
Definition round_half_even (p k : Z) : Z :=
  let d := (2 ^ k)%Z in
  let q := (p / d)%Z in
  match (2 * (p mod d) ?= d)%Z with
  | Lt => q
  | Gt => (q + 1)%Z
  | Eq => if Z.even q then q else (q + 1)%Z
  end.

(** The integer [n] such that [n / 10^ndigits] is the decimal with
    [ndigits] places nearest to the exact value [m * 2^e] (ties to
    even): the digits the interpreter prints before reading them back. *)
Definition scaled_digits (m : positive) (e : Z) (ndigits : Z) : Z :=
  let scale := (10 ^ ndigits)%Z in
  if (0 <=? e)%Z then (Zpos m * 2 ^ e * scale)%Z
  else round_half_even (Zpos m * scale) (- e).

(** [round(x, ndigits)] for [ndigits >= 0]: the exact binary value of
    [x] is rounded to [ndigits] decimal places and the decimal is read
    back as the nearest binary64 value; infinities, NaN and zeros are
    returned as they are. *)
Definition round (x : float) (ndigits : Z) : float :=
  match x with
  | S754_finite s m e =>
      let n := scaled_digits m e ndigits in
      if (n =? 0)%Z then S754_zero s
      else SFdiv prec emax (of_int (cond_Zopp s n)) (of_int (10 ^ ndigits))
  | _ => x
  end.

End PyFloat.

(* ===================================================================== *)
(** * Exceptions, effects and the external services *)
(* ===================================================================== *)

(** Instances of [Exception]: the class and [str(e)].  The one class the
    code tells apart is [TranscriptsDisabled]. *)
Inductive exn_class :=
| TranscriptsDisabled
| OtherException (name : string).

Record exn := Exn { exn_cls : exn_class; exn_str : str }.

Definition is_TranscriptsDisabled (e : exn) : bool :=
  match exn_cls e with
  | TranscriptsDisabled => true
  | OtherException _ => false
  end.

Inductive outcome (A : Type) :=
| Return (a : A)
| Raise (e : exn).
Arguments Return {A} a.
Arguments Raise {A} e.

(** A transcript entry; only its text is consumed ([None]: no ["text"]
    key or attribute). *)
Record entry := Entry { entry_text : option str }.
Definition transcript := list entry.

(** What [list_transcripts] returns, and a track of it. *)
Record track := Track { fetch : outcome transcript }.
Record transcript_list :=
  TranscriptList { find_transcript : list str -> outcome track }.

(** The outcome of the POST to the generative-language endpoint, as far
    as [generate_summary_with_gemini] tells outcomes apart. *)
Inductive gemini_reply :=
| Candidate (text : option str)   (* expected nesting; [.get("text")] of the first part *)
| UnexpectedStructure             (* a 2xx answer without that nesting *)
| RequestException (msg : str)    (* [requests.exceptions.RequestException], [str(e)] *)
| OtherFailure (msg : str).       (* any other [Exception], [str(e)] *)

(** An item of the metadata answer: its ["snippet"]. *)
Record snippet := Snippet {
  snip_title : option str;
  snip_channelTitle : option str;
  snip_publishedAt : option str
}.

Record video_fields := VideoFields {
  vi_title : option str;
  vi_channel : option str;
  vi_publishedAt : option str
}.
(** [{}] is [None]. *)
Definition video_info := option video_fields.

Record world := World {
  YT_API_KEY : option str;
  api_get_transcript : str -> list str -> outcome transcript;
  api_list_transcripts : str -> outcome transcript_list;
  api_generate_content : str -> gemini_reply;
  api_videos_list : str -> outcome (list snippet)
}.

(** Calls that leave the process, in the order they are made. *)
Inductive event :=
| GetTranscript (video_id : str) (languages : list str)
| ListTranscripts (video_id : str)
| FindTranscript (languages : list str)
| FetchTrack
| GenerateContent (prompt : str)
| VideosList (video_id : str).

(** Computations: the log of calls is threaded, an exception ends the
    computation unless a handler takes it. *)
Definition M (A : Type) : Type := list event -> outcome A * list event.

Definition ret {A} (a : A) : M A := fun log => (Return a, log).

Definition raise {A} (e : exn) : M A := fun log => (Raise e, log).

Definition bind {A B} (c : M A) (k : A -> M B) : M B :=
  fun log =>
    match c log with
    | (Return a, log') => k a log'
    | (Raise e, log') => (Raise e, log')
    end.

(** [try: c  except Exception as e: handler e] *)
Definition try_except {A} (c : M A) (handler : exn -> M A) : M A :=
  fun log =>
    match c log with
    | (Return a, log') => (Return a, log')
    | (Raise e, log') => handler e log'
    end.

(** An external call: logged, then answered by the oracle. *)
Definition call {A} (ev : event) (answer : outcome A) : M A :=
  fun log => (answer, log ++ [ev]).

Declare Scope py_scope.
Delimit Scope py_scope with py.
Notation "x <- c ;; k" := (bind c (fun x => k))
  (at level 61, c at next level, right associativity) : py_scope.
Open Scope py_scope.

(* ===================================================================== *)
(** * The pipeline of [backend/app.py] *)
(* ===================================================================== *)

(** [not x] for a value that is [None] or a string. *)
Definition falsy (x : option str) : bool :=
  match x with
  | None | Some [] => true
  | Some (_ :: _) => false
  end.

(** The JSON bodies the endpoint builds. *)
Record payload := Payload {
  p_transcript : str;
  p_summary : str;
  p_keyPoints : list str;
  p_tags : list str;
  p_wordCount : Z;
  p_readingTime : PyFloat.float;
  p_videoInfo : video_info
}.

Inductive body :=
| ErrorBody (error : str)
| SummaryBody (p : payload).

Record response := Response { status : Z; resp_body : body }.

(** The text of an entry, the empty string when it has none: the
    defaults of [entry.get] and [getattr] at line 153. *)
Definition text_of (e : entry) : str :=
  match entry_text e with
  | Some t => t
  | None => []
  end.

Definition FAILURE_MARKER : str := lit "Failed to generate summary:".

(** [re.match(r"^[\-•]\s+", line)] as a truth value. *)
Definition bullet_match (line : str) : bool :=
  match line with
  | c :: d :: _ => (char_eqb c HYPHEN || char_eqb c BULLET) && is_space d
  | _ => false
  end.

(** The argument of [lstrip] at line 172: hyphen, bullet, space. *)
Definition BULLET_CHARS : str := [HYPHEN; BULLET; SPACE].

Definition strip_bullet (line : str) : str :=
  strip (lstrip_chars BULLET_CHARS line).

(** The variables of the loop over the lines (lines 165-174). *)
Record scan_state := ScanState {
  summary_lines : list str;
  bullets : list str;
  hit_bullets : bool
}.

Definition scan_init : scan_state := ScanState [] [] false.

(** One iteration of [for line in lines]. *)
Definition scan_step (st : scan_state) (line : str) : scan_state :=
  let hit := if bullet_match line then true else hit_bullets st in
  if hit then
    ScanState (summary_lines st) (bullets st ++ [strip_bullet line]) hit
  else
    ScanState (summary_lines st ++ [line]) (bullets st) hit.

Definition scan_from (st : scan_state) (lines : list str) : scan_state :=
  fold_left scan_step lines st.

Definition scan_lines (lines : list str) : scan_state :=
  scan_from scan_init lines.

(** [[b for b in bullets if b]] *)
Definition non_empty (bs : list str) : list str :=
  filter (fun b => match b with [] => false | _ :: _ => true end) bs.

Definition TAGS : list str :=
  [ lit "AI"; lit "Gemini"; lit "YouTube"; lit "Summary" ].

(** The prompt of [generate_summary_with_gemini]; the last line holds an
    en dash (U+2013) and a non-breaking hyphen (U+2011). *)
Definition prompt_of (transcript_text : str) : str :=
  lit "You are a helpful assistant that summarizes YouTube transcripts."
  ++ [LF; LF]
  ++ lit "Transcript:" ++ [LF]
  ++ transcript_text ++ [LF; LF]
  ++ lit "Provide a concise summary and then 3" ++ [8211%N]
  ++ lit "5 bullet" ++ [8209%N] ++ lit "point key points.".

Section Pipeline.

Variable w : world.

Definition get_transcript_fallback (video_id : str) : M transcript :=
  try_except
    (call (GetTranscript video_id [lit "en"])
          (api_get_transcript w video_id [lit "en"]))
    (fun english =>
       if is_TranscriptsDisabled english then raise english
       else
         try_except
           (transcripts <- call (ListTranscripts video_id)
                                (api_list_transcripts w video_id) ;;
            hindi <- call (FindTranscript [lit "hi"])
                          (find_transcript transcripts [lit "hi"]) ;;
            call FetchTrack (fetch hindi))
           (fun e => raise e)).

Definition fetch_video_info (video_id : str) : M video_info :=
  if falsy (YT_API_KEY w) then ret None
  else
    try_except
      (items <- call (VideosList video_id) (api_videos_list w video_id) ;;
       match items with
       | [] => ret None
       | snip :: _ =>
           ret (Some (VideoFields (snip_title snip)
                                  (snip_channelTitle snip)
                                  (snip_publishedAt snip)))
       end)
      (fun _ => ret None).

(** Returns a string, or [None] when the first part has no text. *)
Definition generate_summary_with_gemini (transcript_text : str)
  : M (option str) :=
  let prompt := prompt_of transcript_text in
  reply <- call (GenerateContent prompt)
                (Return (api_generate_content w prompt)) ;;
  match reply with
  | Candidate text => ret text
  | UnexpectedStructure =>
      ret (Some (lit "Failed to generate summary: Unexpected API response."))
  | RequestException e =>
      ret (Some (lit "Failed to generate summary: API call error - " ++ e))
  | OtherFailure e =>
      ret (Some (lit "Failed to generate summary: " ++ e))
  end.

(** [POST /api/summarize]; the argument is [data.get("url")]. *)
Definition summarize_video (url : option str) : M response :=
  match url with
  | None | Some [] =>
      ret (Response 400 (ErrorBody (lit "No URL provided")))
  | Some url =>
      match extract_video_id url with
      | None | Some [] =>
          ret (Response 400 (ErrorBody (lit "Invalid YouTube URL")))
      | Some vid =>
          try_except
            (transcript <- get_transcript_fallback vid ;;
             let texts := List.map text_of transcript in
             let full_text := join [SPACE] texts in
             let trimmed := trim_to_char_limit full_text MAX_CHARS in
             out <- generate_summary_with_gemini trimmed ;;
             match out with
             | None =>
                 raise (Exn (OtherException "AttributeError")
                   (lit "'NoneType' object has no attribute 'startswith'"))
             | Some out =>
                 if startswith FAILURE_MARKER out then
                   ret (Response 500 (ErrorBody out))
                 else
                   let lines := split_on LF out in
                   let st := scan_lines lines in
                   let summary := strip (join [SPACE] (summary_lines st)) in
                   let word_count := len (split trimmed) in
                   let reading_time :=
                     PyFloat.round (PyFloat.truediv word_count 200) 1 in
                   video_info <- fetch_video_info vid ;;
                   ret (Response 200 (SummaryBody
                          (Payload trimmed summary (non_empty (bullets st))
                                   TAGS word_count reading_time video_info)))
             end)
            (fun e =>
               if is_TranscriptsDisabled e then
                 ret (Response 400
                        (ErrorBody (lit "Transcript disabled for this video")))
               else
                 ret (Response 500
                        (ErrorBody (lit "Failed to generate summary: "
                                    ++ exn_str e))))
      end
  end.

End Pipeline.

(** The strings the scan contributes to the payload (lines 164-176 and
    185), as functions of the summariser's output. *)
Definition summary_of (out : str) : str :=
  strip (join [SPACE] (summary_lines (scan_lines (split_on LF out)))).

Definition key_points_of (out : str) : list str :=
  non_empty (bullets (scan_lines (split_on LF out))).

(* ===================================================================== *)
(** * Vocabulary of the statements and concrete inputs *)
(* ===================================================================== *)

Definition INTRO_EXAMPLE : str :=
  lit "Intro line." ++ [LF] ++ lit "- point one" ++ [LF] ++ lit "- point two".

Definition EN : list str := [lit "en"].

Definition HI : list str := [lit "hi"].

(** The Hindi retrieval of lines 51-52, on its own. *)
Definition hindi_retrieval (w : world) (video_id : str) : M transcript :=
  transcripts <- call (ListTranscripts video_id)
                      (api_list_transcripts w video_id) ;;
  hindi <- call (FindTranscript HI) (find_transcript transcripts HI) ;;
  call FetchTrack (fetch hindi).

Definition VIDEO : str := lit "dQw4w9WgXcQ".

Definition WATCH_URL : str := lit "https://www.youtube.com/watch?v=dQw4w9WgXcQ".

Definition no_transcript (code : string) : exn :=
  Exn (OtherException "NoTranscriptFound")
      (lit "No transcripts were found for the requested language codes: "
       ++ lit code).

Definition disabled : exn :=
  Exn TranscriptsDisabled (lit "Subtitles are disabled for this video").

Definition hindi_entries : transcript :=
  [Entry (Some (lit "namaste"))].

(** English missing, Hindi missing as well. *)
Definition world_no_track : world :=
  World None
    (fun _ _ => Raise (no_transcript "en"))
    (fun _ => Return (TranscriptList (fun _ => Raise (no_transcript "hi"))))
    (fun _ => UnexpectedStructure)
    (fun _ => Return []).

(** English missing, Hindi present. *)
Definition world_hindi : world :=
  World None
    (fun _ _ => Raise (no_transcript "en"))
    (fun _ => Return (TranscriptList
                        (fun _ => Return (Track (Return hindi_entries)))))
    (fun _ => UnexpectedStructure)
    (fun _ => Return []).

(** Transcripts disabled. *)
Definition world_disabled : world :=
  World None
    (fun _ _ => Raise disabled)
    (fun _ => Raise disabled)
    (fun _ => UnexpectedStructure)
    (fun _ => Return []).

(** The pattern [pat] has a match in [url] that starts after [pre] and
    captures [t]. *)
Definition match_after (pat url pre t : str) : Prop :=
  is_token t = true /\ exists post, url = pre ++ pat ++ t ++ post.

Definition occurs (pat url : str) : Prop :=
  exists pre t, match_after pat url pre t.

(** [t] is captured by the leftmost match of [pat] in [url]. *)
Definition leftmost_match (pat url t : str) : Prop :=
  exists pre,
    match_after pat url pre t
    /\ forall pre' t', match_after pat url pre' t' ->
                       (List.length pre <= List.length pre')%nat.

Definition WATCH_PREFIX : str := lit "https://www.youtube.com/watch?v=".

Definition SHORT_PREFIX : str := lit "https://youtu.be/".

Definition EMBED_PREFIX : str := lit "https://www.youtube.com/embed/".

Definition TRANSCRIPT_DISABLED : str := lit "Transcript disabled for this video".

(** The transcript text handed to the summariser (lines 153-155). *)
Definition trimmed_text (t : transcript) : str :=
  trim_to_char_limit (join [SPACE] (List.map text_of t)) MAX_CHARS.

(** The payload assembled at lines 176-190. *)
Definition payload_of (trimmed out : str) (vi : video_info) : payload :=
  Payload trimmed (summary_of out) (key_points_of out) TAGS
          (len (split trimmed))
          (PyFloat.round (PyFloat.truediv (len (split trimmed)) 200) 1)
          vi.

(** The handlers of lines 192-196. *)
Definition on_error (e : exn) : response :=
  if is_TranscriptsDisabled e then Response 400 (ErrorBody TRANSCRIPT_DISABLED)
  else Response 500 (ErrorBody (lit "Failed to generate summary: " ++ exn_str e)).

(** The body of the [try] (lines 152-190). *)
Definition guarded (w : world) (vid : str) : M response :=
  transcript <- get_transcript_fallback w vid ;;
  out <- generate_summary_with_gemini w (trimmed_text transcript) ;;
  match out with
  | None =>
      raise (Exn (OtherException "AttributeError")
                 (lit "'NoneType' object has no attribute 'startswith'"))
  | Some out =>
      if startswith FAILURE_MARKER out then
        ret (Response 500 (ErrorBody out))
      else
        video_info <- fetch_video_info w vid ;;
        ret (Response 200
               (SummaryBody (payload_of (trimmed_text transcript) out video_info)))
  end.

Definition english_entries : transcript :=
  [ Entry (Some (lit "never gonna give you up"));
    Entry (Some (lit "never gonna let you down")) ].

Definition CONNECTION_ERROR : str := lit "connection refused".

(** English transcript present, generative API unreachable. *)
Definition world_api_down : world :=
  World None
    (fun _ _ => Return english_entries)
    (fun _ => Raise (no_transcript "hi"))
    (fun _ => RequestException CONNECTION_ERROR)
    (fun _ => Return []).

(** English transcript present, the summariser answers [text]. *)
Definition world_summary (text : str) : world :=
  World None
    (fun _ _ => Return english_entries)
    (fun _ => Raise (no_transcript "hi"))
    (fun _ => Candidate (Some text))
    (fun _ => Return []).

(** The line ["-\t- item"]: hyphen, tab, hyphen, space, text. *)
Definition TABBED_BULLET : str := [HYPHEN; TAB] ++ lit "- item".

(** A transcript of 400 one-word entries, summarised by the intro
    example. *)
Definition four_hundred_words : transcript :=
  repeat (Entry (Some (lit "word"))) 400.

Definition world_400 : world :=
  World None
    (fun _ _ => Return four_hundred_words)
    (fun _ => Raise (no_transcript "hi"))
    (fun _ => Candidate (Some INTRO_EXAMPLE))
    (fun _ => Return []).

Definition payload_400 : payload :=
  payload_of (trimmed_text four_hundred_words) INTRO_EXAMPLE None.

(** Structural equality of binary64 values. *)

Definition float_eqb (x y : PyFloat.float) : bool :=
  match x, y with
  | S754_zero a, S754_zero b => Bool.eqb a b
  | S754_infinity a, S754_infinity b => Bool.eqb a b
  | S754_nan, S754_nan => true
  | S754_finite a m e, S754_finite b m' e' =>
      Bool.eqb a b && Pos.eqb m m' && Z.eqb e e'
  | _, _ => false
  end.

(** [n / 10] is a decimal nearest to [wc / 200], and [round] returns the
    binary64 value of that decimal. *)
Definition is_nearest_tenth (wc n : Z) : bool :=
  float_eqb (PyFloat.round (PyFloat.truediv wc 200) 1) (PyFloat.truediv n 10)
  && (Z.abs (20 * n - wc) <=? 10)%Z.

Definition rounds_to_tenth (wc : Z) : bool :=
  existsb (is_nearest_tenth wc) [(wc / 20)%Z; (wc / 20 + 1)%Z].

(* ===================================================================== *)
(** * Requests seen from outside: calls and metadata *)
(* ===================================================================== *)


(** The calls to the metadata API in a log. *)
Definition metadata_calls (evs : list event) : list str :=
  flat_map (fun ev => match ev with
                      | VideosList video_id => [video_id]
                      | _ => []
                      end) evs.


(** The world [w] with another metadata key and another metadata API. *)
Definition with_metadata (w : world) (key : option str)
    (videos : str -> outcome (list snippet)) : world :=
  World key (api_get_transcript w) (api_list_transcripts w)
        (api_generate_content w) videos.

(** A response with the [videoInfo] of its payload blanked. *)
Definition without_video_info (r : response) : response :=
  match resp_body r with
  | ErrorBody _ => r
  | SummaryBody p =>
      Response (status r)
        (SummaryBody (Payload (p_transcript p) (p_summary p) (p_keyPoints p)
                              (p_tags p) (p_wordCount p) (p_readingTime p) None))
  end.

(** The three messages of a 400 answer. *)
Definition NO_URL : str := lit "No URL provided".

Definition INVALID_URL : str := lit "Invalid YouTube URL".

(** The fields [fetch_video_info] copies from a snippet. *)
Definition fields_of (snip : snippet) : video_fields :=
  VideoFields (snip_title snip) (snip_channelTitle snip) (snip_publishedAt snip).

(** The first bullet line splits the lines: [split_at_bullet lines] is
    the lines before it and the lines from it on. *)
Fixpoint split_at_bullet (lines : list str) : list str * list str :=
  match lines with
  | [] => ([], [])
  | l :: ls =>
      if bullet_match l then ([], lines)
      else let (before, rest) := split_at_bullet ls in (l :: before, rest)
  end.

(* ===================================================================== *)
(** * The answer of the generative-language API as JSON *)
(* ===================================================================== *)

Module Json.

(** What [response.json()] returns: [None], [bool], [int], [float],
    [str], [list], or [dict] with string keys.  A dict is the list of its
    items; no two items of a dict have the same key. *)
#[local] Set Warnings "-register-all".
Inductive json :=
| JNull
| JBool (b : bool)
| JInt (n : Z)
| JFloat (f : spec_float)
| JStr (s : str)
| JList (items : list json)
| JDict (fields : list (str * json)).
#[local] Set Warnings "register-all".

(** [bool(v)] *)
Definition truthy (v : json) : bool :=
  match v with
  | JNull => false
  | JBool b => b
  | JInt n => negb (n =? 0)%Z
  | JFloat (S754_zero _) => false
  | JFloat _ => true
  | JStr [] => false
  | JStr (_ :: _) => true
  | JList [] => false
  | JList (_ :: _) => true
  | JDict [] => false
  | JDict (_ :: _) => true
  end.

(** [type(v).__name__] *)
Definition type_name (v : json) : string :=
  match v with
  | JNull => "NoneType"
  | JBool _ => "bool"
  | JInt _ => "int"
  | JFloat _ => "float"
  | JStr _ => "str"
  | JList _ => "list"
  | JDict _ => "dict"
  end.

Definition QUOTE : char := 39%N.

Definition quoted (s : str) : str := [QUOTE] ++ s ++ [QUOTE].

Definition attribute_error (v : json) (attr : string) : exn :=
  Exn (OtherException "AttributeError")
      (quoted (lit (type_name v)) ++ lit " object has no attribute "
       ++ quoted (lit attr)).

Definition type_error (msg : str) : exn := Exn (OtherException "TypeError") msg.

Fixpoint key_eqb (a b : str) : bool :=
  match a, b with
  | [], [] => true
  | x :: a', y :: b' => char_eqb x y && key_eqb a' b'
  | _, _ => false
  end.

(** The value of the item with key [key]. *)
Fixpoint lookup (key : str) (fields : list (str * json)) : option json :=
  match fields with
  | [] => None
  | (k, v) :: fields' =>
      if key_eqb k key then Some v else lookup key fields'
  end.

(** [v.get(key)] *)
Definition get (v : json) (key : str) : outcome json :=
  match v with
  | JDict fields =>
      match lookup key fields with
      | Some x => Return x
      | None => Return JNull
      end
  | _ => Raise (attribute_error v "get")
  end.

(** [len(v)] *)
Definition len_of (v : json) : outcome Z :=
  match v with
  | JStr s => Return (len s)
  | JList items => Return (len items)
  | JDict fields => Return (len fields)
  | _ => Raise (type_error (lit "object of type " ++ quoted (lit (type_name v))
                            ++ lit " has no len()"))
  end.

Definition not_subscriptable (v : json) : exn :=
  type_error (quoted (lit (type_name v)) ++ lit " object is not subscriptable").

(** [v[key]] for one of the keys of the source, which are plain words. *)
Definition item (v : json) (key : str) : outcome json :=
  match v with
  | JDict fields =>
      match lookup key fields with
      | Some x => Return x
      | None => Raise (Exn (OtherException "KeyError") (quoted key))
      end
  | JList _ =>
      Raise (type_error (lit "list indices must be integers or slices, not str"))
  | JStr _ =>
      Raise (type_error (lit "string indices must be integers, not 'str'"))
  | _ => Raise (not_subscriptable v)
  end.

(** [v[0]]; a dict of parsed JSON has no key [0]. *)
Definition first (v : json) : outcome json :=
  match v with
  | JList (x :: _) => Return x
  | JList [] =>
      Raise (Exn (OtherException "IndexError") (lit "list index out of range"))
  | JStr (c :: _) => Return (JStr [c])
  | JStr [] =>
      Raise (Exn (OtherException "IndexError") (lit "string index out of range"))
  | JDict _ => Raise (Exn (OtherException "KeyError") (lit "0"))
  | _ => Raise (not_subscriptable v)
  end.

End Json.

Import Json.

(** Evaluation of expressions that may raise. *)
Definition and_then {A B} (c : outcome A) (k : A -> outcome B) : outcome B :=
  match c with
  | Return a => k a
  | Raise e => Raise e
  end.

(** An operand of [and] used as a condition. *)
Definition holds (c : outcome json) : outcome bool :=
  and_then c (fun v => Return (truthy v)).

(** [len(c) > 0] *)
Definition positive_len (c : outcome json) : outcome bool :=
  and_then c (fun v => and_then (len_of v) (fun n => Return (0 <? n)%Z)).

(** [a and b] as a condition: [b] is evaluated only when [a] holds. *)
Definition and_also (a b : outcome bool) : outcome bool :=
  match a with
  | Return true => b
  | Return false => Return false
  | Raise e => Raise e
  end.

Definition CANDIDATES : str := lit "candidates".

Definition CONTENT : str := lit "content".

Definition PARTS : str := lit "parts".

Definition TEXT : str := lit "text".

(** [result["candidates"][0]] *)
Definition first_candidate (result : json) : outcome json :=
  and_then (item result CANDIDATES) first.

(** The condition of lines 117-120. *)
Definition expected_structure (result : json) : outcome bool :=
  and_also (holds (get result CANDIDATES))
 (and_also (positive_len (item result CANDIDATES))
 (and_also (holds (and_then (first_candidate result) (fun c => get c CONTENT)))
 (and_also (holds (and_then (first_candidate result) (fun c =>
                   and_then (item c CONTENT) (fun content => get content PARTS))))
           (positive_len (and_then (first_candidate result) (fun c =>
                          and_then (item c CONTENT) (fun content =>
                          item content PARTS))))))).

(** [result["candidates"][0]["content"].get("parts")[0].get("text")] *)
Definition first_text (result : json) : outcome json :=
  and_then (first_candidate result) (fun c =>
  and_then (item c CONTENT) (fun content =>
  and_then (get content PARTS) (fun parts =>
  and_then (first parts) (fun part =>
  get part TEXT)))).

Definition UNEXPECTED : str :=
  lit "Failed to generate summary: Unexpected API response.".

(** Lines 117-125 on the parsed answer: the value returned. *)
Definition read_result (result : json) : outcome json :=
  and_then (expected_structure result) (fun ok =>
    if ok then first_text result else Return (JStr UNEXPECTED)).

(** What lines 109-115 produce: an exception of the HTTP client
    ([requests.exceptions.RequestException]), another exception, or the
    parsed answer. *)
Inductive http_outcome :=
| HttpRequestException (e : exn)
| HttpOtherException (e : exn)
| HttpJson (result : json).

(** The value [generate_summary_with_gemini] returns (lines 108-135). *)
Definition client_value (h : http_outcome) : json :=
  match h with
  | HttpRequestException e =>
      JStr (lit "Failed to generate summary: API call error - " ++ exn_str e)
  | HttpOtherException e =>
      JStr (lit "Failed to generate summary: " ++ exn_str e)
  | HttpJson result =>
      match read_result result with
      | Return v => v
      | Raise e => JStr (lit "Failed to generate summary: " ++ exn_str e)
      end
  end.

(** An answer of the expected structure whose first part holds [text],
    with anything after the first candidate and the first part, and any
    other key beside [content], [parts] and [text] placed after them. *)
Definition well_formed (text : json) (part_rest content_rest cand_rest top_rest
                        : list (str * json))
                       (more_parts more_candidates : list json) : json :=
  JDict ((CANDIDATES,
          JList (JDict ((CONTENT,
                         JDict ((PARTS,
                                 JList (JDict ((TEXT, text) :: part_rest)
                                        :: more_parts))
                                :: content_rest))
                        :: cand_rest)
                 :: more_candidates))
         :: top_rest).

(* ===================================================================== *)
(** * The endpoint from the request body on *)
(* ===================================================================== *)

Definition URL : str := lit "url".

(** [summarize_video] from its first line.  [body] is what
    [request.get_json()] does: it returns the parsed body ([None] as
    [JNull]) or raises.  Lines 141-147 are outside the [try]: the
    exception of [get_json], of [data.get] on a body that is no object
    and of [re.search] on a url that is no string (the text is the one of
    Python 3.11) leave the function.  On a string the rest is
    [summarize_video]. *)
Definition summarize_request (w : world) (body : outcome json) : M response :=
  match body with
  | Raise e => raise e
  | Return parsed =>
      let data := if truthy parsed then parsed else JDict [] in
      match get data URL with
      | Raise e => raise e
      | Return url =>
          if truthy url then
            match url with
            | JStr s => summarize_video w (Some s)
            | _ =>
                raise (type_error
                         (lit "expected string or bytes-like object, got "
                          ++ quoted (lit (type_name url))))
            end
          else summarize_video w None
      end
  end.

(* ===================================================================== *)
(** * [backend/utils/youtube.py] *)
(* ===================================================================== *)

Module Youtube.

Definition AMPERSAND : char := 38%N.

Fixpoint take_while (f : char -> bool) (s : str) : str :=
  match s with
  | [] => []
  | c :: s' => if f c then c :: take_while f s' else []
  end.

(** The group [([^&]+)] at the start of [s]: the longest run of
    characters other than the ampersand. *)
Definition group (s : str) : str :=
  take_while (fun c => negb (char_eqb c AMPERSAND)) s.

(** The pattern [v=([^&]+)] matched at the very start of [s]. *)
Definition match_at (s : str) : option str :=
  if startswith (lit "v=") s then
    match group (skipn 2 s) with
    | [] => None
    | g => Some g
    end
  else None.

(** [re.search(r"v=([^&]+)", s)], group 1. *)
Fixpoint re_search (s : str) : option str :=
  match match_at s with
  | Some g => Some g
  | None => match s with
            | [] => None
            | _ :: s' => re_search s'
            end
  end.

Definition extract_video_id (url : str) : option str := re_search url.

(** [[t['text'] for t in transcript]] on dict entries. *)
Fixpoint texts_of (t : transcript) : outcome (list str) :=
  match t with
  | [] => Return []
  | e :: t' =>
      match entry_text e with
      | None => Raise (Exn (OtherException "KeyError") (quoted TEXT))
      | Some x => and_then (texts_of t') (fun xs => Return (x :: xs))
      end
  end.

Definition INVALID : str := lit "Invalid YouTube URL".

Definition ERROR_PREFIX : str := lit "Error fetching transcript: ".

(** [get_transcript(url)]; the provider's default language list is
    [('en',)]. *)
Definition get_transcript (w : world) (url : str) : M str :=
  match extract_video_id url with
  | None | Some [] => ret INVALID
  | Some video_id =>
      try_except
        (transcript <- call (GetTranscript video_id [lit "en"])
                            (api_get_transcript w video_id [lit "en"]) ;;
         match texts_of transcript with
         | Return texts => ret (join [SPACE] texts)
         | Raise e => raise e
         end)
        (fun e => ret (ERROR_PREFIX ++ exn_str e))
  end.

End Youtube.

(** The class [[^&]]. *)
Definition not_amp (c : char) : bool := negb (char_eqb c Youtube.AMPERSAND).

(* ===================================================================== *)
(** * [backend/utils/summarizer.py] *)
(* ===================================================================== *)

Module Summarizer.

(** The arguments of [openai.ChatCompletion.create]. *)
Record chat_request := ChatRequest {
  model : str;
  messages : list (str * str);            (* role, content *)
  temperature : PyFloat.float;
  max_tokens : Z
}.

(** The answer: the [message.content] of each choice ([None] when the
    content is null). *)
Definition chat_api := chat_request -> outcome (list (option str)).

Definition prompt_of (text : str) : str :=
  lit "Summarize the following YouTube transcript:" ++ [LF; LF]
  ++ text ++ [LF; LF] ++ lit "Summary:".

Definition request_of (text : str) : chat_request :=
  ChatRequest (lit "gpt-4") [(lit "user", prompt_of text)]
              (PyFloat.truediv 1 2) 400.

(** [summarize_text(text)]; nothing is caught. *)
Definition summarize_text (create : chat_api) (text : str) : outcome str :=
  and_then (create (request_of text)) (fun choices =>
    match choices with
    | [] => Raise (Exn (OtherException "IndexError") (lit "list index out of range"))
    | None :: _ =>
        Raise (Exn (OtherException "AttributeError")
                   (lit "'NoneType' object has no attribute 'strip'"))
    | Some content :: _ => Return (strip content)
    end).

End Summarizer.

(* ===================================================================== *)
(** * Concrete inputs of the added statements *)
(* ===================================================================== *)

Definition sample_snippet : snippet :=
  Snippet (Some (lit "Never Gonna Give You Up")) (Some (lit "Rick Astley"))
          (Some (lit "2009-10-25T06:57:33Z")).

(** A configured metadata key; the metadata API answers one item. *)
Definition world_with_key : world :=
  World (Some (lit "key"))
    (fun _ _ => Return english_entries)
    (fun _ => Raise (no_transcript "hi"))
    (fun _ => Candidate (Some INTRO_EXAMPLE))
    (fun _ => Return [sample_snippet]).

(** A configured metadata key; the metadata API fails. *)
Definition world_metadata_down : world :=
  with_metadata world_with_key (Some (lit "key"))
    (fun _ => Raise (Exn (OtherException "HttpError") (lit "quota exceeded"))).

(** English missing, and the listing of the tracks reports that
    transcripts are disabled. *)
Definition world_hindi_disabled : world :=
  World None
    (fun _ _ => Raise (no_transcript "en"))
    (fun _ => Raise disabled)
    (fun _ => UnexpectedStructure)
    (fun _ => Return []).

(** The summariser answers a candidate without text. *)
Definition world_no_text : world :=
  World None
    (fun _ _ => Return english_entries)
    (fun _ => Raise (no_transcript "hi"))
    (fun _ => Candidate None)
    (fun _ => Return []).

(** An empty transcript. *)
Definition world_silent : world :=
  World None
    (fun _ _ => Return [])
    (fun _ => Raise (no_transcript "hi"))
    (fun _ => Candidate (Some (lit "Nothing is said.")))
    (fun _ => Return []).

Definition sample_answer : json :=
  well_formed (JStr INTRO_EXAMPLE) [] [(lit "role", JStr (lit "model"))]
              [(lit "finishReason", JStr (lit "STOP"))]
              [(lit "modelVersion", JStr (lit "gemini-2.0-flash"))] [] [].

(* ===================================================================== *)
(** * Truncation *)
(* ===================================================================== *)

Lemma len_firstn_le (text : str) (n : nat) :
  (len (firstn n text) <= Z.of_nat n)%Z.
Proof.
  unfold len. rewrite length_firstn. lia.
Qed.

Lemma trim_short (text : str) :
  (len text <= MAX_CHARS)%Z -> trim_to_char_limit text MAX_CHARS = text.
Proof.
  intros H. unfold trim_to_char_limit.
  destruct (Z.leb_spec (len text) MAX_CHARS); [reflexivity | lia].
Qed.

Lemma trim_long (text : str) :
  (len text > MAX_CHARS)%Z ->
  trim_to_char_limit text MAX_CHARS = firstn 4000 text.
Proof.
  intros H. unfold trim_to_char_limit.
  destruct (Z.leb_spec (len text) MAX_CHARS); [lia | ].
  unfold slice_to, MAX_CHARS.
  change (0 <=? 4000)%Z with true. cbv iota.
  replace (Z.to_nat 4000) with 4000%nat by lia. reflexivity.
Qed.

Lemma trim_len (text : str) :
  (len (trim_to_char_limit text MAX_CHARS) <= MAX_CHARS)%Z.
Proof.
  destruct (Z.leb_spec (len text) MAX_CHARS) as [H | H].
  - rewrite trim_short by exact H. exact H.
  - rewrite trim_long by lia.
    pose proof (len_firstn_le text 4000) as B.
    unfold MAX_CHARS. lia.
Qed.

(** C2. [trim_to_char_limit] with its default limit returns the text
    unchanged when it has at most 4000 characters and exactly its first
    4000 characters otherwise; the result never exceeds 4000 characters
    and trimming twice is trimming once. *)
Theorem trim_to_char_limit_spec (text : str) :
  ((len text <= 4000)%Z -> trim_to_char_limit text MAX_CHARS = text)
  /\ ((len text > 4000)%Z ->
      trim_to_char_limit text MAX_CHARS = firstn 4000 text
      /\ len (trim_to_char_limit text MAX_CHARS) = 4000%Z)
  /\ (len (trim_to_char_limit text MAX_CHARS) <= 4000)%Z
  /\ trim_to_char_limit (trim_to_char_limit text MAX_CHARS) MAX_CHARS
     = trim_to_char_limit text MAX_CHARS.
Proof.
  repeat split.
  - apply trim_short.
  - apply trim_long; assumption.
  - rewrite trim_long by assumption.
    unfold len in *. rewrite length_firstn. unfold MAX_CHARS in *. lia.
  - apply trim_len.
  - apply trim_short, trim_len.
Qed.

Lemma trim_to_char_limit_witness :
  trim_to_char_limit (lit "short text") MAX_CHARS = lit "short text"
  /\ len (trim_to_char_limit (repeat 97%N 4001) MAX_CHARS) = 4000%Z.
Proof.
  split.
  - apply (proj1 (trim_to_char_limit_spec (lit "short text"))).
    vm_compute. discriminate.
  - apply (proj1 (proj2 (trim_to_char_limit_spec (repeat 97%N 4001)))).
    vm_compute. reflexivity.
Defined.

(* ===================================================================== *)
(** * The line scan of the composer *)
(* ===================================================================== *)

Lemma scan_from_app (st : scan_state) (l1 l2 : list str) :
  scan_from st (l1 ++ l2) = scan_from (scan_from st l1) l2.
Proof.
  unfold scan_from. apply fold_left_app.
Qed.

(** In bullet mode every line goes to the bullet list. *)
Lemma scan_from_latched (ls : list str) :
  forall st, hit_bullets st = true ->
    scan_from st ls
    = ScanState (summary_lines st) (bullets st ++ List.map strip_bullet ls) true.
Proof.
  induction ls as [| l ls IH]; intros st Hst.
  - cbn. rewrite app_nil_r. destruct st; cbn in *; subst; reflexivity.
  - change (scan_from st (l :: ls)) with (scan_from (scan_step st l) ls).
    assert (Hstep : scan_step st l
                    = ScanState (summary_lines st) (bullets st ++ [strip_bullet l]) true).
    { unfold scan_step. rewrite Hst. destruct (bullet_match l); reflexivity. }
    rewrite Hstep, IH by reflexivity.
    cbn. rewrite <- app_assoc. reflexivity.
Qed.

(** Before the first match every line goes to the prose. *)
Lemma scan_from_prose (ls : list str) :
  forall st, hit_bullets st = false ->
    (forall l, In l ls -> bullet_match l = false) ->
    scan_from st ls = ScanState (summary_lines st ++ ls) (bullets st) false.
Proof.
  induction ls as [| l ls IH]; intros st Hst Hno.
  - cbn. rewrite app_nil_r. destruct st; cbn in *; subst; reflexivity.
  - change (scan_from st (l :: ls)) with (scan_from (scan_step st l) ls).
    assert (Hstep : scan_step st l
                    = ScanState (summary_lines st ++ [l]) (bullets st) false).
    { unfold scan_step. rewrite Hst, (Hno l (or_introl eq_refl)). reflexivity. }
    rewrite Hstep, IH.
    + cbn. rewrite <- app_assoc. reflexivity.
    + reflexivity.
    + intros l' Hl'. apply Hno. right. exact Hl'.
Qed.

Lemma scan_step_match (st : scan_state) (line : str) :
  bullet_match line = true ->
  scan_step st line
  = ScanState (summary_lines st) (bullets st ++ [strip_bullet line]) true.
Proof.
  intros H. unfold scan_step. rewrite H. reflexivity.
Qed.

(** C3. Once a line has matched the bullet pattern, that line and every
    later line, matching or not, is stripped and appended to the bullet
    list, and the prose lines stay what they were before the match. *)
Theorem scan_latch_one_way (before after : list str) (line : str) :
  bullet_match line = true ->
  scan_lines (before ++ line :: after)
  = ScanState (summary_lines (scan_lines before))
              (bullets (scan_lines before)
               ++ List.map strip_bullet (line :: after))
              true.
Proof.
  intros Hm. unfold scan_lines.
  rewrite scan_from_app.
  change (scan_from (scan_from scan_init before) (line :: after))
    with (scan_from (scan_step (scan_from scan_init before) line) after).
  rewrite (scan_step_match _ _ Hm).
  rewrite scan_from_latched by reflexivity.
  cbn. rewrite <- app_assoc. reflexivity.
Qed.

Lemma scan_latch_one_way_witness :
  scan_lines [lit "Intro"; lit "- one"; lit "not a bullet"; lit "- two"]
  = ScanState [lit "Intro"]
              [lit "one"; lit "not a bullet"; lit "two"] true.
Proof.
  apply (scan_latch_one_way [lit "Intro"] [lit "not a bullet"; lit "- two"]
                            (lit "- one")).
  reflexivity.
Defined.

(* ===================================================================== *)
(** * Stripping *)
(* ===================================================================== *)

Lemma drop_while_head (f : char -> bool) (s : str) (c : char) :
  hd_error (drop_while f s) = Some c -> f c = false.
Proof.
  induction s as [| a s IH]; cbn.
  - discriminate.
  - destruct (f a) eqn:Fa.
    + exact IH.
    + cbn. intros H. injection H as <-. exact Fa.
Qed.

Lemma drop_while_snoc (f : char -> bool) (s : str) (c : char) :
  f c = false -> drop_while f (s ++ [c]) = drop_while f s ++ [c].
Proof.
  intros Fc. induction s as [| a s IH]; cbn.
  - rewrite Fc. reflexivity.
  - destruct (f a); [exact IH | reflexivity].
Qed.

(** [rstrip] keeps a first character that is not whitespace. *)
Lemma rstrip_cons (c : char) (s : str) :
  is_space c = false -> exists s', rstrip (c :: s) = c :: s'.
Proof.
  intros Hc. unfold rstrip. cbn [rev].
  rewrite drop_while_snoc by exact Hc.
  rewrite rev_app_distr. cbn. eauto.
Qed.

Lemma rstrip_nil : rstrip [] = [].
Proof. reflexivity. Qed.

(** The result of [strip] does not start with whitespace ... *)
Lemma strip_head_not_space (s : str) (c : char) :
  hd_error (strip s) = Some c -> is_space c = false.
Proof.
  unfold strip, lstrip.
  destruct (drop_while is_space s) as [| a t] eqn:E.
  - rewrite rstrip_nil. discriminate.
  - assert (Ha : is_space a = false).
    { apply (drop_while_head is_space s). rewrite E. reflexivity. }
    destruct (@rstrip_cons a t Ha) as [s' ->]. cbn.
    intros H. injection H as <-. exact Ha.
Qed.

(** ... nor end with it. *)
Lemma strip_last_not_space (s : str) (c : char) :
  hd_error (rev (strip s)) = Some c -> is_space c = false.
Proof.
  unfold strip, rstrip. rewrite rev_involutive.
  apply drop_while_head.
Qed.

(** When what is left of [lstrip] starts with a character that is not
    whitespace, [strip] keeps that first character. *)
Lemma strip_keeps_head (c : char) (s : str) :
  is_space c = false -> hd_error (strip (c :: s)) = Some c.
Proof.
  intros Hc. unfold strip, lstrip. cbn [drop_while]. rewrite Hc.
  destruct (@rstrip_cons c s Hc) as [s' ->]. reflexivity.
Qed.

Lemma strip_nil : strip [] = [].
Proof. reflexivity. Qed.

(* ===================================================================== *)
(** * Prose and key points *)
(* ===================================================================== *)

Lemma bullets_scan_from (ls : list str) :
  forall st b, In b (bullets (scan_from st ls)) ->
    In b (bullets st) \/ exists l, In l ls /\ b = strip_bullet l.
Proof.
  induction ls as [| l ls IH]; intros st b Hb.
  - left. exact Hb.
  - change (scan_from st (l :: ls)) with (scan_from (scan_step st l) ls) in Hb.
    destruct (IH _ _ Hb) as [H | [l' [Hin ->]]].
    + unfold scan_step in H.
      destruct (if bullet_match l then true else hit_bullets st); cbn in H.
      * apply in_app_or in H. destruct H as [H | [<- | []]].
        -- left. exact H.
        -- right. exists l. split; [left; reflexivity | reflexivity].
      * left. exact H.
    + right. exists l'. split; [right; exact Hin | reflexivity].
Qed.

Lemma non_empty_In (bs : list str) (k : str) :
  In k (non_empty bs) <-> In k bs /\ k <> [].
Proof.
  unfold non_empty. rewrite filter_In.
  destruct k; split; intros [H1 H2]; split; try assumption;
    try discriminate; try reflexivity.
  exfalso. apply H2. reflexivity.
Qed.

Lemma key_points_origin (out k : str) :
  In k (key_points_of out) ->
  k <> [] /\ exists line, In line (split_on LF out) /\ k = strip_bullet line.
Proof.
  unfold key_points_of. rewrite non_empty_In. intros [Hin Hne].
  split; [exact Hne | ].
  destruct (bullets_scan_from _ _ _ Hin) as [[] | H]. exact H.
Qed.

Lemma no_bullets_scan (lines : list str) :
  (forall l, In l lines -> bullet_match l = false) ->
  scan_lines lines = ScanState lines [] false.
Proof.
  intros H. unfold scan_lines.
  rewrite scan_from_prose; [reflexivity | reflexivity | exact H].
Qed.

(* ===================================================================== *)
(** * Transcript retrieval *)
(* ===================================================================== *)

Section Fetcher.

Variable w : world.
Variables (video_id : str) (log : list event).

Lemma fallback_english_ok (t : transcript) :
  api_get_transcript w video_id EN = Return t ->
  get_transcript_fallback w video_id log
  = (Return t, log ++ [GetTranscript video_id EN]).
Proof.
  intros H. unfold get_transcript_fallback, try_except, call.
  fold EN. rewrite H. reflexivity.
Qed.

Lemma fallback_disabled (e : exn) :
  api_get_transcript w video_id EN = Raise e ->
  is_TranscriptsDisabled e = true ->
  get_transcript_fallback w video_id log
  = (Raise e, log ++ [GetTranscript video_id EN]).
Proof.
  intros H D. unfold get_transcript_fallback, try_except, call.
  fold EN. rewrite H, D. reflexivity.
Qed.

(** After another English failure the outcome is the outcome of the
    Hindi retrieval, whether a transcript or an exception. *)
Lemma fallback_other (e : exn) :
  api_get_transcript w video_id EN = Raise e ->
  is_TranscriptsDisabled e = false ->
  get_transcript_fallback w video_id log
  = hindi_retrieval w video_id (log ++ [GetTranscript video_id EN]).
Proof.
  intros H D. unfold get_transcript_fallback, hindi_retrieval.
  unfold try_except at 1. unfold call at 1.
  fold EN HI. rewrite H, D.
  unfold try_except, raise.
  destruct (bind _ _ _) as [[t | e'] l]; reflexivity.
Qed.

End Fetcher.

(** C9. When the English fetch raises an exception other than
    [TranscriptsDisabled] and listing the tracks, selecting the Hindi one
    and fetching it all succeed, [get_transcript_fallback] returns the
    Hindi entries. *)
Theorem fallback_returns_hindi
    (w : world) (video_id : str) (log : list event)
    (english : exn) (tracks : transcript_list) (hindi_track : track)
    (hindi : transcript) :
  api_get_transcript w video_id [lit "en"] = Raise english ->
  is_TranscriptsDisabled english = false ->
  api_list_transcripts w video_id = Return tracks ->
  find_transcript tracks [lit "hi"] = Return hindi_track ->
  fetch hindi_track = Return hindi ->
  get_transcript_fallback w video_id log
  = (Return hindi,
     log ++ [GetTranscript video_id [lit "en"]; ListTranscripts video_id;
             FindTranscript [lit "hi"]; FetchTrack]).
Proof.
  intros He Hd Hl Hf Hh.
  rewrite (fallback_other w video_id log _ He Hd).
  unfold hindi_retrieval, bind, call. fold HI.
  rewrite Hl. unfold HI. rewrite Hf, Hh.
  repeat rewrite <- app_assoc. reflexivity.
Qed.

(** When both retrievals fail, the exception that leaves
    [get_transcript_fallback] is the one of the Hindi retrieval. *)
Lemma fallback_both_fail
    (w : world) (video_id : str) (log log' : list event)
    (english hindi : exn) :
  api_get_transcript w video_id [lit "en"] = Raise english ->
  is_TranscriptsDisabled english = false ->
  hindi_retrieval w video_id (log ++ [GetTranscript video_id EN])
  = (Raise hindi, log') ->
  get_transcript_fallback w video_id log = (Raise hindi, log').
Proof.
  intros He Hd Hh.
  rewrite (fallback_other w video_id log _ He Hd). exact Hh.
Qed.

(* ===================================================================== *)
(** * The fallback on concrete services *)
(* ===================================================================== *)

Lemma fallback_returns_hindi_witness :
  get_transcript_fallback world_hindi VIDEO []
  = (Return hindi_entries,
     [GetTranscript VIDEO [lit "en"]; ListTranscripts VIDEO;
      FindTranscript [lit "hi"]; FetchTrack]).
Proof.
  apply (@fallback_returns_hindi world_hindi VIDEO [] (no_transcript "en")
           (TranscriptList (fun _ => Return (Track (Return hindi_entries))))
           (Track (Return hindi_entries)) hindi_entries);
    reflexivity.
Defined.

(** C1 (the code departs from it). With the English track missing and the
    Hindi track missing too, the exception that leaves
    [get_transcript_fallback] is the Hindi one, not the English one:
    [raise e] at line 55 names the exception bound by the inner
    [except Exception as e].  The endpoint reports that Hindi error. *)
Theorem fallback_raises_hindi_error :
  get_transcript_fallback world_no_track VIDEO []
  = (Raise (no_transcript "hi"),
     [GetTranscript VIDEO [lit "en"]; ListTranscripts VIDEO;
      FindTranscript [lit "hi"]])
  /\ api_get_transcript world_no_track VIDEO [lit "en"]
     = Raise (no_transcript "en")
  /\ no_transcript "hi" <> no_transcript "en"
  /\ fst (summarize_video world_no_track (Some WATCH_URL) [])
     = Return (Response 500
         (ErrorBody (lit "Failed to generate summary: "
                     ++ exn_str (no_transcript "hi")))).
Proof.
  split; [reflexivity | ]. split; [reflexivity | ]. split.
  - intros H. apply (f_equal exn_str) in H. vm_compute in H. discriminate.
  - reflexivity.
Qed.

(* ===================================================================== *)
(** * Searching the identifier *)
(* ===================================================================== *)

Lemma startswith_app (p s : str) : startswith p (p ++ s) = true.
Proof.
  induction p as [| a p IH]; cbn.
  - reflexivity.
  - unfold char_eqb. rewrite N.eqb_refl. exact IH.
Qed.

Lemma startswith_inv (p : str) :
  forall s, startswith p s = true -> s = p ++ skipn (List.length p) s.
Proof.
  induction p as [| a p IH]; intros s H.
  - reflexivity.
  - destruct s as [| c s]; cbn in H; [discriminate | ].
    apply andb_true_iff in H. destruct H as [Hc Hs].
    apply N.eqb_eq in Hc. subst c. cbn. f_equal. apply IH. exact Hs.
Qed.

Lemma is_token_length (t : str) : is_token t = true -> List.length t = 11%nat.
Proof.
  unfold is_token. intros H. apply andb_true_iff in H.
  destruct H as [H _]. apply Nat.eqb_eq. exact H.
Qed.

Lemma firstn_token_app (t post : str) :
  is_token t = true -> firstn 11 (t ++ post) = t.
Proof.
  intros H. rewrite <- (is_token_length _ H).
  rewrite firstn_app, Nat.sub_diag, firstn_all. cbn. apply app_nil_r.
Qed.

(** [match_at] is the match anchored at the start. *)
Lemma match_at_iff (pat s t : str) :
  match_at pat s = Some t <->
  is_token t = true /\ exists post, s = pat ++ t ++ post.
Proof.
  unfold match_at. cbv zeta. split.
  - destruct (startswith pat s) eqn:Hs; [ | discriminate].
    destruct (is_token _) eqn:Ht; [ | discriminate].
    intros H.
    assert (Et : t = firstn 11 (skipn (List.length pat) s)) by congruence.
    subst t. split; [exact Ht | ].
    exists (skipn 11 (skipn (List.length pat) s)).
    rewrite firstn_skipn. apply startswith_inv. exact Hs.
  - intros [Ht [post ->]].
    rewrite startswith_app, skipn_app, Nat.sub_diag, skipn_all. cbn [app skipn].
    rewrite (firstn_token_app _ _ Ht), Ht. reflexivity.
Qed.

Lemma re_search_cons (pat : pattern) (c : char) (s : str) :
  re_search pat (c :: s)
  = match match_at pat (c :: s) with
    | Some t => Some t
    | None => re_search pat s
    end.
Proof. reflexivity. Qed.

Lemma re_search_skip (pat : pattern) (c : char) (s : str) :
  match_at pat (c :: s) = None -> re_search pat (c :: s) = re_search pat s.
Proof.
  intros H. rewrite re_search_cons, H. reflexivity.
Qed.

Lemma re_search_sound (pat : pattern) (url : str) :
  forall t, re_search pat url = Some t -> leftmost_match pat url t.
Proof.
  induction url as [| c url IH]; intros t H.
  - cbn in H. destruct (match_at pat []) eqn:E; [ | discriminate].
    injection H as ->. apply match_at_iff in E. destruct E as [Ht Hp].
    exists []. split; [split; assumption | intros; cbn; lia].
  - rewrite re_search_cons in H.
    destruct (match_at pat (c :: url)) as [t0 | ] eqn:E.
    + injection H as ->. apply match_at_iff in E. destruct E as [Ht Hp].
      exists []. split; [split; assumption | intros; cbn; lia].
    + destruct (IH _ H) as [pre [[Ht [post Hp]] Hleft]].
      exists (c :: pre). split.
      * split; [exact Ht | ]. exists post. cbn. rewrite Hp. reflexivity.
      * intros pre' t' [Ht' [post' Hp']].
        destruct pre' as [| c' pre'].
        -- cbn in Hp'. assert (F : match_at pat (c :: url) = Some t').
           { apply match_at_iff. split; [exact Ht' | eauto]. }
           rewrite F in E. discriminate.
        -- cbn in Hp'. injection Hp' as -> Hp'. cbn.
           apply le_n_S. apply (Hleft pre' t'). split; [exact Ht' | eauto].
Qed.

Lemma re_search_complete (pat : pattern) (url : str) :
  re_search pat url = None -> ~ occurs pat url.
Proof.
  induction url as [| c url IH]; intros H [pre [t [Ht [post Hp]]]].
  - cbn in H. destruct (match_at pat []) eqn:E; [discriminate | ].
    destruct pre; [ | discriminate].
    assert (F : match_at pat [] = Some t).
    { apply match_at_iff. split; [exact Ht | eauto]. }
    rewrite F in E. discriminate.
  - rewrite re_search_cons in H.
    destruct (match_at pat (c :: url)) eqn:E; [discriminate | ].
    destruct pre as [| c' pre].
    + assert (F : match_at pat (c :: url) = Some t).
      { apply match_at_iff. split; [exact Ht | eauto]. }
      rewrite F in E. discriminate.
    + cbn in Hp. injection Hp as -> Hp.
      apply (IH H). exists pre, t. split; [exact Ht | eauto].
Qed.

Lemma leftmost_occurs (pat url t : str) :
  leftmost_match pat url t -> occurs pat url.
Proof.
  intros [pre [H _]]. exists pre, t. exact H.
Qed.

Lemma re_search_none_iff (pat : pattern) (url : str) :
  re_search pat url = None <-> ~ occurs pat url.
Proof.
  split; [apply re_search_complete | ].
  intros H. destruct (re_search pat url) as [t | ] eqn:E; [ | reflexivity].
  exfalso. apply H. apply (leftmost_occurs _ _ _ (re_search_sound _ _ _ E)).
Qed.

Lemma app_eq_length (p1 : str) :
  forall p2 x y, p1 ++ x = p2 ++ y -> List.length p1 = List.length p2 ->
                 p1 = p2 /\ x = y.
Proof.
  induction p1 as [| a p1 IH]; intros [| b p2] x y H L; try discriminate.
  - split; [reflexivity | exact H].
  - cbn in H. injection H as -> H. cbn in L. injection L as L.
    destruct (IH _ _ _ H L) as [-> ->]. split; reflexivity.
Qed.

Lemma leftmost_unique (pat url t1 t2 : str) :
  leftmost_match pat url t1 -> leftmost_match pat url t2 -> t1 = t2.
Proof.
  intros [p1 [M1 L1]] [p2 [M2 L2]].
  pose proof (L1 _ _ M2) as A. pose proof (L2 _ _ M1) as B.
  destruct M1 as [T1 [q1 E1]]. destruct M2 as [T2 [q2 E2]].
  rewrite E1 in E2.
  apply app_eq_length in E2; [ | lia]. destruct E2 as [_ E2].
  apply app_inv_head in E2.
  apply app_eq_length in E2; [ tauto | ].
  rewrite (is_token_length _ T1), (is_token_length _ T2). reflexivity.
Qed.

(** [re.search]: the group of the leftmost match, [None] when the
    pattern occurs nowhere. *)
Lemma re_search_some_iff (pat : pattern) (url t : str) :
  re_search pat url = Some t <-> leftmost_match pat url t.
Proof.
  split; [apply re_search_sound | ].
  intros H. destruct (re_search pat url) as [t0 | ] eqn:E.
  - f_equal. apply (leftmost_unique _ _ _ _ (re_search_sound _ _ _ E) H).
  - exfalso. apply (re_search_complete _ _ E). apply (leftmost_occurs _ _ _ H).
Qed.

Lemma re_search_short (pat : pattern) (s : str) :
  (List.length s < List.length pat + 11)%nat -> re_search pat s = None.
Proof.
  intros H. apply re_search_none_iff. intros [pre [t [Ht [post E]]]].
  apply (f_equal (@List.length char)) in E.
  repeat rewrite length_app in E. rewrite (is_token_length _ Ht) in E. lia.
Qed.

Lemma extract_video_id_unfold (url : str) :
  extract_video_id url
  = match re_search (lit "v=") url with
    | Some g => Some g
    | None =>
        match re_search (lit "youtu.be/") url with
        | Some g => Some g
        | None => re_search (lit "embed/") url
        end
    end.
Proof.
  unfold extract_video_id, patterns, first_match.
  destruct (re_search (lit "v=") url); [reflexivity | ].
  destruct (re_search (lit "youtu.be/") url); [reflexivity | ].
  destruct (re_search (lit "embed/") url); reflexivity.
Qed.

Lemma extract_video_id_token (url vid : str) :
  extract_video_id url = Some vid -> is_token vid = true.
Proof.
  rewrite extract_video_id_unfold. intros H.
  assert (G : exists pat, re_search pat url = Some vid).
  { destruct (re_search (lit "v=") url) eqn:E1;
      [exists (lit "v="); congruence | ].
    destruct (re_search (lit "youtu.be/") url) eqn:E2;
      [exists (lit "youtu.be/"); congruence | ].
    exists (lit "embed/"). exact H. }
  destruct G as [pat G]. apply re_search_sound in G.
  destruct G as [pre [[Ht _] _]]. exact Ht.
Qed.

(** Skips the positions of a known prefix at which a pattern visibly
    fails to match. *)
Ltac expose P :=
  let v := eval vm_compute in P in
  change P with v; cbn [app].

Ltac skip_mismatches :=
  repeat (rewrite re_search_skip by reflexivity).

Lemma match_at_exact (pat t : str) :
  is_token t = true -> match_at pat (pat ++ t) = Some t.
Proof.
  intros H. apply match_at_iff. split; [exact H | ].
  exists []. rewrite app_nil_r. reflexivity.
Qed.

Lemma re_search_token_alone (pat t : str) :
  is_token t = true -> pat <> [] -> re_search pat t = None.
Proof.
  intros H Hp. apply re_search_short. rewrite (is_token_length _ H).
  destruct pat; [congruence | cbn; lia].
Qed.

Section Shapes.

Variable t : str.
Hypothesis token : is_token t = true.

Lemma search_v_watch : re_search (lit "v=") (WATCH_PREFIX ++ t) = Some t.
Proof.
  expose WATCH_PREFIX. skip_mismatches.
  rewrite re_search_cons.
  change (118%N :: 61%N :: t) with (lit "v=" ++ t).
  rewrite (match_at_exact _ _ token). reflexivity.
Qed.

Lemma search_v_short : re_search (lit "v=") (SHORT_PREFIX ++ t) = None.
Proof.
  expose SHORT_PREFIX. skip_mismatches.
  apply re_search_token_alone; [exact token | discriminate].
Qed.

Lemma search_v_embed : re_search (lit "v=") (EMBED_PREFIX ++ t) = None.
Proof.
  expose EMBED_PREFIX. skip_mismatches.
  apply re_search_token_alone; [exact token | discriminate].
Qed.

Lemma search_short_short :
  re_search (lit "youtu.be/") (SHORT_PREFIX ++ t) = Some t.
Proof.
  expose SHORT_PREFIX. skip_mismatches.
  rewrite re_search_cons.
  match goal with
  | |- context [match_at _ ?s] => change s with (lit "youtu.be/" ++ t)
  end.
  rewrite (match_at_exact _ _ token). reflexivity.
Qed.

Lemma search_short_embed :
  re_search (lit "youtu.be/") (EMBED_PREFIX ++ t) = None.
Proof.
  expose EMBED_PREFIX. skip_mismatches.
  apply re_search_token_alone; [exact token | discriminate].
Qed.

Lemma search_embed_embed :
  re_search (lit "embed/") (EMBED_PREFIX ++ t) = Some t.
Proof.
  expose EMBED_PREFIX. skip_mismatches.
  rewrite re_search_cons.
  match goal with
  | |- context [match_at _ ?s] => change s with (lit "embed/" ++ t)
  end.
  rewrite (match_at_exact _ _ token). reflexivity.
Qed.

Lemma extract_three_shapes :
  extract_video_id (WATCH_PREFIX ++ t) = Some t
  /\ extract_video_id (SHORT_PREFIX ++ t) = Some t
  /\ extract_video_id (EMBED_PREFIX ++ t) = Some t.
Proof.
  repeat split; rewrite extract_video_id_unfold.
  - rewrite search_v_watch. reflexivity.
  - rewrite search_v_short, search_short_short. reflexivity.
  - rewrite search_v_embed, search_short_embed, search_embed_embed.
    reflexivity.
Qed.

End Shapes.

Lemma extract_some_iff (url t : str) :
  extract_video_id url = Some t <->
     leftmost_match (lit "v=") url t
  \/ (~ occurs (lit "v=") url /\ leftmost_match (lit "youtu.be/") url t)
  \/ (~ occurs (lit "v=") url /\ ~ occurs (lit "youtu.be/") url
      /\ leftmost_match (lit "embed/") url t).
Proof.
  rewrite extract_video_id_unfold.
  repeat rewrite <- re_search_some_iff. repeat rewrite <- re_search_none_iff.
  destruct (re_search (lit "v=") url) as [a | ];
    destruct (re_search (lit "youtu.be/") url) as [b | ];
    destruct (re_search (lit "embed/") url) as [c | ];
    split; intros H;
    repeat match goal with
           | H : _ \/ _ |- _ => destruct H
           | H : _ /\ _ |- _ => destruct H
           end;
    try discriminate; try congruence; auto.
Qed.

Lemma extract_none_iff (url : str) :
  extract_video_id url = None <->
  forall pat, In pat patterns -> ~ occurs pat url.
Proof.
  rewrite extract_video_id_unfold. split.
  - intros H pat Hin. apply re_search_none_iff.
    destruct (re_search (lit "v=") url) eqn:E1; [discriminate | ].
    destruct (re_search (lit "youtu.be/") url) eqn:E2; [discriminate | ].
    destruct Hin as [<- | [<- | [<- | []]]]; assumption.
  - intros H.
    assert (H1 : re_search (lit "v=") url = None).
    { apply re_search_none_iff, H. cbn. auto. }
    assert (H2 : re_search (lit "youtu.be/") url = None).
    { apply re_search_none_iff, H. cbn. auto. }
    assert (H3 : re_search (lit "embed/") url = None).
    { apply re_search_none_iff, H. cbn. auto. }
    rewrite H1, H2, H3. reflexivity.
Qed.

(** C5. [extract_video_id] returns the group captured by the leftmost
    match of the first pattern, in the order [v=], [youtu.be/], [embed/],
    that occurs in the URL; it returns [None] exactly when none of the
    three occurs; and for every token of eleven identifier characters the
    watch, short and embed URLs built on it all yield that token. *)
Theorem extract_video_id_spec (url : str) :
  (forall t,
      extract_video_id url = Some t <->
         leftmost_match (lit "v=") url t
      \/ (~ occurs (lit "v=") url /\ leftmost_match (lit "youtu.be/") url t)
      \/ (~ occurs (lit "v=") url /\ ~ occurs (lit "youtu.be/") url
          /\ leftmost_match (lit "embed/") url t))
  /\ (extract_video_id url = None <->
      forall pat, In pat patterns -> ~ occurs pat url)
  /\ (forall t, is_token t = true ->
        extract_video_id (WATCH_PREFIX ++ t) = Some t
        /\ extract_video_id (SHORT_PREFIX ++ t) = Some t
        /\ extract_video_id (EMBED_PREFIX ++ t) = Some t).
Proof.
  split; [ | split].
  - intros t. apply extract_some_iff.
  - apply extract_none_iff.
  - intros t Ht. apply extract_three_shapes. exact Ht.
Qed.

Lemma extract_video_id_spec_witness :
  extract_video_id (lit "https://www.youtube.com/watch?v=dQw4w9WgXcQ")
  = Some (lit "dQw4w9WgXcQ")
  /\ extract_video_id (lit "https://youtu.be/dQw4w9WgXcQ")
     = Some (lit "dQw4w9WgXcQ")
  /\ extract_video_id (lit "https://www.youtube.com/embed/dQw4w9WgXcQ")
     = Some (lit "dQw4w9WgXcQ").
Proof.
  apply (proj2 (proj2 (extract_video_id_spec [])) (lit "dQw4w9WgXcQ")).
  reflexivity.
Defined.

(* ===================================================================== *)
(** * The endpoint *)
(* ===================================================================== *)

Lemma fetch_video_info_returns (w : world) (vid : str) (log : list event) :
  exists vi log', fetch_video_info w vid log = (Return vi, log').
Proof.
  unfold fetch_video_info. destruct (falsy (YT_API_KEY w)).
  - eexists _, _. reflexivity.
  - unfold try_except, bind, call.
    destruct (api_videos_list w vid) as [[| snip items] | e];
      eexists _, _; reflexivity.
Qed.

Lemma token_cons (t : str) : is_token t = true -> exists c t', t = c :: t'.
Proof.
  intros H. apply is_token_length in H. destruct t; [discriminate | eauto].
Qed.

Lemma extract_nil : extract_video_id [] = None.
Proof. reflexivity. Qed.

(** The endpoint on a URL that holds an identifier: the guarded body,
    with an exception turned into an error response. *)
Lemma summarize_video_unfold (w : world) (url vid : str) (log : list event) :
  extract_video_id url = Some vid ->
  summarize_video w (Some url) log
  = match guarded w vid log with
    | (Return r, log') => (Return r, log')
    | (Raise e, log') => (Return (on_error e), log')
    end.
Proof.
  intros Hvid.
  pose proof (extract_video_id_token _ _ Hvid) as Ht.
  destruct (token_cons _ Ht) as [c [t' ->]].
  destruct url as [| u0 url'].
  - rewrite extract_nil in Hvid. discriminate.
  - unfold summarize_video. rewrite Hvid. unfold try_except.
    match goal with
    | |- match ?X with _ => _ end = _ => change X with (guarded w (c :: t') log)
    end.
    destruct (guarded w (c :: t') log) as [[r | e] l]; [reflexivity | ].
    unfold on_error, ret. destruct (is_TranscriptsDisabled e); reflexivity.
Qed.

Section Run.

Variable w : world.
Variables (url vid : str) (log : list event).
Hypothesis Hvid : extract_video_id url = Some vid.

Variables (tr : transcript) (log1 : list event).
Hypothesis Hfetch : get_transcript_fallback w vid log = (Return tr, log1).

Variables (out : str) (log2 : list event).
Hypothesis Hout :
  generate_summary_with_gemini w (trimmed_text tr) log1 = (Return (Some out), log2).

Lemma run_failure_marker :
  startswith FAILURE_MARKER out = true ->
  summarize_video w (Some url) log
  = (Return (Response 500 (ErrorBody out)), log2).
Proof.
  intros Hm. rewrite (summarize_video_unfold w url vid log Hvid).
  unfold guarded, bind. rewrite Hfetch, Hout, Hm. reflexivity.
Qed.

Lemma run_success :
  startswith FAILURE_MARKER out = false ->
  exists vi log3,
    fetch_video_info w vid log2 = (Return vi, log3)
    /\ summarize_video w (Some url) log
       = (Return (Response 200 (SummaryBody (payload_of (trimmed_text tr) out vi))),
          log3).
Proof.
  intros Hm.
  destruct (fetch_video_info_returns w vid log2) as [vi [log3 Hvi]].
  exists vi, log3. split; [exact Hvi | ].
  rewrite (summarize_video_unfold w url vid log Hvid).
  unfold guarded, bind. rewrite Hfetch, Hout, Hm, Hvi. reflexivity.
Qed.

End Run.

(** A 200 answer comes from a run in which the URL holds an identifier,
    a transcript is returned, the summariser answers a string that does
    not start with the failure marker, and the payload is built from the
    trimmed transcript and that string. *)
Lemma summarize_video_200 (w : world) (url : option str) (log log' : list event)
    (p : payload) :
  summarize_video w url log = (Return (Response 200 (SummaryBody p)), log') ->
  exists u vid tr l1 out l2 vi,
    url = Some u
    /\ extract_video_id u = Some vid
    /\ get_transcript_fallback w vid log = (Return tr, l1)
    /\ generate_summary_with_gemini w (trimmed_text tr) l1 = (Return (Some out), l2)
    /\ startswith FAILURE_MARKER out = false
    /\ fetch_video_info w vid l2 = (Return vi, log')
    /\ p = payload_of (trimmed_text tr) out vi.
Proof.
  destruct url as [[| c u] | ]; try (cbn; discriminate).
  destruct (extract_video_id (c :: u)) as [vid | ] eqn:Hvid.
  - rewrite (summarize_video_unfold w _ vid log Hvid).
    unfold guarded, bind, on_error.
    destruct (get_transcript_fallback w vid log) as [[tr | e] l1] eqn:Hf.
    + destruct (generate_summary_with_gemini w (trimmed_text tr) l1)
        as [[[out | ] | e] l2] eqn:Hg.
      * destruct (startswith FAILURE_MARKER out) eqn:Hm.
        -- unfold ret. discriminate.
        -- destruct (fetch_video_info w vid l2) as [[vi | e] l3] eqn:Hv.
           ++ unfold ret. intros H. injection H as <- <-.
              exists (c :: u), vid, tr, l1, out, l2, vi.
              repeat split; assumption.
           ++ destruct (is_TranscriptsDisabled e); discriminate.
      * unfold raise. cbn. discriminate.
      * destruct (is_TranscriptsDisabled e); discriminate.
    + destruct (is_TranscriptsDisabled e); discriminate.
  - unfold summarize_video. rewrite Hvid. cbn. discriminate.
Qed.

(** What the summariser returns does not depend on the calls made
    before it. *)
Lemma generate_summary_value (w : world) (text : str) (l l' : list event) :
  fst (generate_summary_with_gemini w text l)
  = fst (generate_summary_with_gemini w text l').
Proof.
  unfold generate_summary_with_gemini, bind, call.
  destruct (api_generate_content w (prompt_of text)); reflexivity.
Qed.

(** The summary and the key points of a success payload are those of the
    string the summariser returns for the payload's transcript. *)
Lemma payload_from_output (w : world) (url : option str) (log log' : list event)
    (p : payload) :
  summarize_video w url log = (Return (Response 200 (SummaryBody p)), log') ->
  exists out,
    (forall l, fst (generate_summary_with_gemini w (p_transcript p) l)
               = Return (Some out))
    /\ startswith FAILURE_MARKER out = false
    /\ p_summary p = summary_of out
    /\ p_keyPoints p = key_points_of out.
Proof.
  intros Hrun.
  destruct (summarize_video_200 w url log log' p Hrun)
    as [u [vid [tr [l1 [out [l2 [vi [_ [_ [_ [Hg [Hm [_ ->]]]]]]]]]]]]].
  exists out. cbn [payload_of p_transcript p_summary p_keyPoints].
  split; [ | split; [exact Hm | split; reflexivity]].
  intros l. rewrite (generate_summary_value w _ l l1), Hg. reflexivity.
Qed.

(** C6. When the English fetch raises [TranscriptsDisabled],
    [get_transcript_fallback] raises that same exception after the one
    English call (no Hindi retrieval is attempted), and the endpoint
    answers 400 with the message ["Transcript disabled for this video"]. *)
Theorem disabled_gives_400
    (w : world) (url vid : str) (log : list event) (e : exn) :
  extract_video_id url = Some vid ->
  api_get_transcript w vid [lit "en"] = Raise e ->
  is_TranscriptsDisabled e = true ->
  get_transcript_fallback w vid log
  = (Raise e, log ++ [GetTranscript vid [lit "en"]])
  /\ summarize_video w (Some url) log
     = (Return (Response 400
                  (ErrorBody (lit "Transcript disabled for this video"))),
        log ++ [GetTranscript vid [lit "en"]]).
Proof.
  intros Hvid He Hd.
  pose proof (fallback_disabled w vid log e He Hd) as Hf.
  split; [exact Hf | ].
  rewrite (summarize_video_unfold w url vid log Hvid).
  unfold guarded, bind. rewrite Hf. unfold on_error. rewrite Hd. reflexivity.
Qed.

Lemma disabled_gives_400_witness :
  get_transcript_fallback world_disabled VIDEO []
  = (Raise disabled, [GetTranscript VIDEO [lit "en"]])
  /\ summarize_video world_disabled (Some WATCH_URL) []
     = (Return (Response 400
                  (ErrorBody (lit "Transcript disabled for this video"))),
        [GetTranscript VIDEO [lit "en"]]).
Proof.
  apply (disabled_gives_400 world_disabled WATCH_URL VIDEO [] disabled);
    reflexivity.
Defined.

(** Every string the client builds for a failed call starts with the
    failure marker. *)
Lemma client_failure_has_marker (w : world) (text : str) (l : list event) :
  (forall t, api_generate_content w (prompt_of text) <> Candidate t) ->
  exists out,
    fst (generate_summary_with_gemini w text l) = Return (Some out)
    /\ startswith FAILURE_MARKER out = true.
Proof.
  intros H. unfold generate_summary_with_gemini, bind, call.
  destruct (api_generate_content w (prompt_of text)) as [t | | e | e].
  - exfalso. apply (H t). reflexivity.
  - eexists. split; reflexivity.
  - eexists. split; reflexivity.
  - eexists. split; reflexivity.
Qed.

(** C7. When the summariser's output starts with
    ["Failed to generate summary:"], the endpoint answers 500 with that
    whole string as its error, and it answers with no success payload. *)
Theorem failure_marker_gives_500
    (w : world) (url vid : str) (log log1 log2 : list event)
    (tr : transcript) (out : str) :
  extract_video_id url = Some vid ->
  get_transcript_fallback w vid log = (Return tr, log1) ->
  generate_summary_with_gemini w (trimmed_text tr) log1
  = (Return (Some out), log2) ->
  startswith FAILURE_MARKER out = true ->
  summarize_video w (Some url) log = (Return (Response 500 (ErrorBody out)), log2)
  /\ forall p l,
       summarize_video w (Some url) log
       <> (Return (Response 200 (SummaryBody p)), l).
Proof.
  intros Hvid Hf Hg Hm.
  pose proof (run_failure_marker w url vid log Hvid tr log1 Hf out log2 Hg Hm) as R.
  split; [exact R | ].
  intros p l. rewrite R. discriminate.
Qed.

Lemma failure_marker_gives_500_witness :
  summarize_video world_api_down (Some WATCH_URL) []
  = (Return (Response 500
       (ErrorBody (lit "Failed to generate summary: API call error - connection refused"))),
     [GetTranscript VIDEO [lit "en"];
      GenerateContent (prompt_of (trimmed_text english_entries))]).
Proof.
  apply (failure_marker_gives_500 world_api_down WATCH_URL VIDEO []
           [GetTranscript VIDEO [lit "en"]]
           [GetTranscript VIDEO [lit "en"];
            GenerateContent (prompt_of (trimmed_text english_entries))]
           english_entries
           (lit "Failed to generate summary: API call error - connection refused"));
    reflexivity.
Defined.

(* ===================================================================== *)
(** * Prose-only summaries *)
(* ===================================================================== *)

(** C4, as stated, fails: on the one-line text ["Summary text. "], whose
    only line matches no bullet pattern, the endpoint's summary is
    ["Summary text."], which is not the line itself (whatever the lines
    are joined with). *)
Lemma summary_not_joined_text :
  let out := lit "Summary text. " in
  (forall l, In l (split_on LF out) -> bullet_match l = false)
  /\ exists p log,
       summarize_video (world_summary out) (Some WATCH_URL) []
       = (Return (Response 200 (SummaryBody p)), log)
       /\ p_keyPoints p = []
       /\ p_summary p = lit "Summary text."
       /\ forall sep, p_summary p <> join sep (split_on LF out).
Proof.
  cbv zeta. split.
  - intros l [<- | []]. reflexivity.
  - eexists _, _. split; [reflexivity | ].
    split; [reflexivity | ]. split; [reflexivity | ].
    intros sep. vm_compute. discriminate.
Qed.

(** C4 (amended). The summary and key points of a success payload are
    [summary_of] and [key_points_of] of the summariser's output.  The text
    ["Intro line.\n- point one\n- point two"] yields the summary
    ["Intro line."] and the key points [["point one"; "point two"]]; a
    text none of whose lines matches the bullet pattern yields no key
    points, and its summary is the lines joined by single spaces with the
    whitespace at both ends removed. *)
Theorem compose_intro_and_prose_only :
  (forall w url log log' p,
      summarize_video w url log = (Return (Response 200 (SummaryBody p)), log') ->
      exists out,
        (forall l, fst (generate_summary_with_gemini w (p_transcript p) l)
                   = Return (Some out))
        /\ p_summary p = summary_of out
        /\ p_keyPoints p = key_points_of out)
  /\ (summary_of INTRO_EXAMPLE = lit "Intro line."
      /\ key_points_of INTRO_EXAMPLE = [lit "point one"; lit "point two"])
  /\ forall out,
       (forall l, In l (split_on LF out) -> bullet_match l = false) ->
       key_points_of out = []
       /\ summary_of out = strip (join [SPACE] (split_on LF out)).
Proof.
  split; [ | split].
  - intros w url log log' p Hrun.
    destruct (payload_from_output w url log log' p Hrun) as [out [A [_ [B C]]]].
    exists out. split; [exact A | split; [exact B | exact C]].
  - split; vm_compute; reflexivity.
  - intros out H. unfold key_points_of, summary_of.
    rewrite (no_bullets_scan _ H). split; reflexivity.
Qed.

Lemma compose_intro_and_prose_only_witness :
  key_points_of (lit "One line." ++ [LF] ++ lit "Another line.") = []
  /\ summary_of (lit "One line." ++ [LF] ++ lit "Another line.")
     = lit "One line. Another line.".
Proof.
  apply (proj2 (proj2 compose_intro_and_prose_only)
               (lit "One line." ++ [LF] ++ lit "Another line.")).
  intros l [<- | [<- | []]]; reflexivity.
Defined.

(* ===================================================================== *)
(** * Key points *)
(* ===================================================================== *)

Lemma lstrip_chars_head (chars s : str) (c : char) :
  hd_error (lstrip_chars chars s) = Some c -> ~ In c chars.
Proof.
  unfold lstrip_chars. intros H Hin.
  apply drop_while_head in H.
  assert (T : existsb (char_eqb c) chars = true).
  { apply existsb_exists. exists c. split; [exact Hin | apply N.eqb_refl]. }
  rewrite T in H. discriminate.
Qed.

(** What a stripped line looks like. *)
Lemma strip_bullet_shape (line k : str) :
  k = strip_bullet line -> k <> [] ->
  (forall c, hd_error k = Some c -> is_space c = false)
  /\ (forall c, hd_error (rev k) = Some c -> is_space c = false)
  /\ (forall c, hd_error k = Some c -> c = HYPHEN \/ c = BULLET ->
        exists ws, hd_error (lstrip_chars BULLET_CHARS line) = Some ws
                   /\ is_space ws = true /\ ws <> SPACE).
Proof.
  intros -> Hne. unfold strip_bullet in *.
  split; [ | split].
  - intros c. apply strip_head_not_space.
  - intros c. apply strip_last_not_space.
  - intros c Hc Hb.
    destruct (lstrip_chars BULLET_CHARS line) as [| a rest] eqn:E.
    + rewrite strip_nil in Hne. congruence.
    + assert (Ha : ~ In a BULLET_CHARS).
      { apply (lstrip_chars_head BULLET_CHARS line). rewrite E. reflexivity. }
      destruct (is_space a) eqn:Sa.
      * exists a. split; [reflexivity | split; [exact Sa | ]].
        intros ->. apply Ha. cbn. auto.
      * rewrite (strip_keeps_head a rest Sa) in Hc. injection Hc as <-.
        exfalso. apply Ha. destruct Hb as [-> | ->]; cbn; auto.
Qed.

(** C10, as stated, fails: the line ["-\t- item"] matches the bullet
    pattern, [lstrip] stops at the tab, and the key point the endpoint
    returns is ["- item"], which begins with a hyphen. *)
Lemma key_point_with_leading_hyphen :
  exists p log,
    summarize_video (world_summary TABBED_BULLET) (Some WATCH_URL) []
    = (Return (Response 200 (SummaryBody p)), log)
    /\ In (lit "- item") (p_keyPoints p)
    /\ hd_error (lit "- item") = Some HYPHEN.
Proof.
  eexists _, _. split; [reflexivity | ].
  split; [left; reflexivity | reflexivity].
Qed.

(** C10 (amended). Every key point of a success payload is a non-empty
    string without whitespace at either end: a line of the summariser's
    output with its leading run of hyphens, bullets and spaces removed
    and then trimmed.  It begins with a hyphen or a bullet only when, in
    the line it comes from, that run is followed at once by a whitespace
    character other than the space. *)
Theorem key_points_stripped
    (w : world) (url : option str) (log log' : list event) (p : payload) :
  summarize_video w url log = (Return (Response 200 (SummaryBody p)), log') ->
  exists out,
    (forall l, fst (generate_summary_with_gemini w (p_transcript p) l)
               = Return (Some out))
    /\ forall k, In k (p_keyPoints p) ->
         k <> []
         /\ (forall c, hd_error k = Some c -> is_space c = false)
         /\ (forall c, hd_error (rev k) = Some c -> is_space c = false)
         /\ (exists line, In line (split_on LF out)
                          /\ k = strip (lstrip_chars BULLET_CHARS line))
         /\ (forall line, k = strip (lstrip_chars BULLET_CHARS line) ->
             forall c, hd_error k = Some c -> c = HYPHEN \/ c = BULLET ->
               exists ws, hd_error (lstrip_chars BULLET_CHARS line) = Some ws
                          /\ is_space ws = true /\ ws <> SPACE).
Proof.
  intros Hrun.
  destruct (payload_from_output w url log log' p Hrun) as [out [A [_ [_ E]]]].
  exists out. split; [exact A | ].
  intros k Hk. rewrite E in Hk.
  destruct (key_points_origin out k Hk) as [Hne [line [Hin Hline]]].
  destruct (strip_bullet_shape line k Hline Hne) as [S1 [S2 _]].
  split; [exact Hne | ]. split; [exact S1 | ]. split; [exact S2 | ].
  split; [exists line; split; [exact Hin | exact Hline] | ].
  intros line' Hline'.
  exact (proj2 (proj2 (strip_bullet_shape line' k Hline' Hne))).
Qed.

Lemma key_points_stripped_witness :
  lit "point one" <> []
  /\ (forall c, hd_error (lit "point one") = Some c -> is_space c = false)
  /\ exists line,
       In line (split_on LF INTRO_EXAMPLE)
       /\ lit "point one" = strip (lstrip_chars BULLET_CHARS line).
Proof.
  destruct (key_points_stripped (world_summary INTRO_EXAMPLE)
              (Some WATCH_URL) [] _ _ eq_refl) as [out [A H]].
  assert (E : out = INTRO_EXAMPLE).
  { specialize (A []). cbn in A. injection A as A. symmetry. exact A. }
  subst out.
  pose proof (H (lit "point one") (or_introl eq_refl)) as K.
  split; [exact (proj1 K) | ]. split; [exact (proj1 (proj2 K)) | ].
  exact (proj1 (proj2 (proj2 (proj2 K)))).
Defined.

(* ===================================================================== *)
(** * Word count and reading time *)
(* ===================================================================== *)

Lemma float_eqb_eq (x y : PyFloat.float) : float_eqb x y = true -> x = y.
Proof.
  destruct x as [a | a | | a m e], y as [b | b | | b m' e']; cbn;
    try discriminate; intros H.
  - apply Bool.eqb_prop in H. congruence.
  - apply Bool.eqb_prop in H. congruence.
  - reflexivity.
  - apply andb_true_iff in H. destruct H as [H He].
    apply andb_true_iff in H. destruct H as [Hs Hm].
    apply Bool.eqb_prop in Hs. apply Pos.eqb_eq in Hm. apply Z.eqb_eq in He.
    congruence.
Qed.

Lemma split_from_length (s : str) :
  forall word,
    (List.length (split_from word s)
     <= List.length s + match word with [] => 0 | _ :: _ => 1 end)%nat.
Proof.
  induction s as [| c s IH]; intros word.
  - destruct word; cbn; lia.
  - cbn [split_from]. destruct (is_space c).
    + destruct word; [specialize (IH []); cbn in *; lia | ].
      specialize (IH []). cbn in *. lia.
    + specialize (IH (c :: word)). cbn in *. lia.
Qed.

Lemma split_len (s : str) : (0 <= len (split s) <= len s)%Z.
Proof.
  unfold len, split. pose proof (split_from_length s []) as H. cbn in H. lia.
Qed.

Lemma rounds_to_tenth_upto_limit :
  forallb rounds_to_tenth (List.map Z.of_nat (seq 0 4001)) = true.
Proof. vm_compute. reflexivity. Qed.

Lemma rounds_to_tenth_in_range (wc : Z) :
  (0 <= wc <= 4000)%Z -> rounds_to_tenth wc = true.
Proof.
  intros H. pose proof rounds_to_tenth_upto_limit as A.
  rewrite forallb_forall in A. apply A.
  rewrite <- (Z2Nat.id wc) by lia. apply in_map. apply in_seq. lia.
Qed.

Lemma reading_time_nearest_tenth (wc : Z) :
  (0 <= wc <= 4000)%Z ->
  exists n : Z,
    PyFloat.round (PyFloat.truediv wc 200) 1 = PyFloat.truediv n 10
    /\ (Z.abs (20 * n - wc) <= 10)%Z.
Proof.
  intros H. pose proof (rounds_to_tenth_in_range wc H) as R.
  unfold rounds_to_tenth in R. apply existsb_exists in R.
  destruct R as [n [_ Hn]]. unfold is_nearest_tenth in Hn.
  apply andb_true_iff in Hn. destruct Hn as [Hf Hd].
  exists n. split; [apply float_eqb_eq; exact Hf | apply Z.leb_le; exact Hd].
Qed.



(* ===================================================================== *)
(** * Truncation with any limit *)
(* ===================================================================== *)

Lemma firstn_prefix {A} (n : nat) (l : list A) : exists rest, l = firstn n l ++ rest.
Proof.
  exists (skipn n l). symmetry. apply firstn_skipn.
Qed.

Lemma trim_is_prefix (text : str) :
  exists rest, text = trim_to_char_limit text MAX_CHARS ++ rest.
Proof.
  unfold trim_to_char_limit.
  destruct (len text <=? MAX_CHARS)%Z.
  - exists []. symmetry. apply app_nil_r.
  - apply firstn_prefix.
Qed.

(** X1. For any limit that is not negative, [trim_to_char_limit] returns
    a prefix of the text of at most [max_chars] characters; it returns the
    text itself exactly when the text fits, cuts to exactly [max_chars]
    characters otherwise, and is idempotent. *)
Theorem trim_within_any_limit (text : str) (max_chars : Z) :
  (0 <= max_chars)%Z ->
  (len (trim_to_char_limit text max_chars) <= max_chars)%Z
  /\ (exists rest, text = trim_to_char_limit text max_chars ++ rest)
  /\ (trim_to_char_limit text max_chars = text <-> (len text <= max_chars)%Z)
  /\ ((max_chars < len text)%Z ->
      len (trim_to_char_limit text max_chars) = max_chars)
  /\ trim_to_char_limit (trim_to_char_limit text max_chars) max_chars
     = trim_to_char_limit text max_chars.
Proof.
  intros Hmax. unfold trim_to_char_limit.
  destruct (Z.leb_spec (len text) max_chars) as [Hle | Hgt].
  - split; [exact Hle | ]. split; [exists []; symmetry; apply app_nil_r | ].
    split; [tauto | ]. split; [lia | ].
    destruct (Z.leb_spec (len text) max_chars); [reflexivity | lia].
  - unfold slice_to. destruct (Z.leb_spec 0 max_chars) as [_ | ?]; [ | lia].
    assert (L : len (firstn (Z.to_nat max_chars) text) = max_chars).
    { unfold len in *. rewrite length_firstn. lia. }
    split; [lia | ]. split; [apply firstn_prefix | ].
    split; [ | split; [intros _; exact L | ]].
    + split; [ | lia]. intros E. rewrite E in L. lia.
    + rewrite L. destruct (Z.leb_spec max_chars max_chars); [reflexivity | lia].
Qed.

Lemma trim_within_any_limit_witness :
  trim_to_char_limit (lit "hello world") 5 = lit "hello"
  /\ trim_to_char_limit (lit "hello world") 0 = [].
Proof.
  split.
  - pose proof (trim_within_any_limit (lit "hello world") 5 ltac:(lia)) as H.
    destruct H as [_ [_ [_ [_ H]]]].
    rewrite <- H. reflexivity.
  - pose proof (trim_within_any_limit (lit "hello world") 0 ltac:(lia)) as H.
    destruct H as [_ [_ [_ [_ H]]]].
    rewrite <- H. reflexivity.
Defined.

(** X2. A negative limit does not cap the result: the function then
    returns the text without its last [|max_chars|] characters (the empty
    string when the text has no more than that). *)
Theorem trim_negative_limit (text : str) (max_chars : Z) :
  (max_chars < 0)%Z ->
  (exists tail,
      text = trim_to_char_limit text max_chars ++ tail
      /\ len tail = Z.min (len text) (- max_chars))
  /\ len (trim_to_char_limit text max_chars) = Z.max 0 (len text + max_chars).
Proof.
  intros Hneg. unfold trim_to_char_limit.
  assert (Hlen : (0 <= len text)%Z) by (unfold len; lia).
  destruct (Z.leb_spec (len text) max_chars) as [? | _]; [lia | ].
  unfold slice_to. destruct (Z.leb_spec 0 max_chars) as [? | _]; [lia | ].
  split.
  - exists (skipn (Z.to_nat (len text + max_chars)) text). split.
    + symmetry. apply firstn_skipn.
    + unfold len in *. rewrite length_skipn. lia.
  - unfold len in *. rewrite length_firstn. lia.
Qed.

Lemma trim_negative_limit_witness :
  len (trim_to_char_limit (lit "hello world") (-3)) = 8%Z.
Proof.
  exact (proj2 (trim_negative_limit (lit "hello world") (-3) ltac:(lia))).
Defined.

(* ===================================================================== *)
(** * The lines of a summary *)
(* ===================================================================== *)

Lemma split_at_bullet_spec (lines : list str) :
  lines = fst (split_at_bullet lines) ++ snd (split_at_bullet lines)
  /\ (forall l, In l (fst (split_at_bullet lines)) -> bullet_match l = false)
  /\ match snd (split_at_bullet lines) with
     | [] => True
     | l :: _ => bullet_match l = true
     end.
Proof.
  induction lines as [| l ls IH]; cbn.
  - split; [reflexivity | split; [intros l [] | exact I]].
  - destruct (bullet_match l) eqn:E; cbn.
    + split; [reflexivity | split; [intros l' [] | exact E]].
    + destruct (split_at_bullet ls) as [before rest]. cbn in *.
      destruct IH as [A [B C]]. split; [f_equal; exact A | ].
      split; [ | exact C].
      intros l' [<- | H]; [exact E | apply B; exact H].
Qed.

Lemma scan_lines_split (lines : list str) :
  scan_lines lines
  = ScanState (fst (split_at_bullet lines))
              (List.map strip_bullet (snd (split_at_bullet lines)))
              (match snd (split_at_bullet lines) with [] => false | _ :: _ => true end).
Proof.
  destruct (split_at_bullet_spec lines) as [A [B C]].
  destruct (split_at_bullet lines) as [before rest]. cbn in *.
  destruct rest as [| l rest].
  - rewrite app_nil_r in A. subst before. apply no_bullets_scan. exact B.
  - rewrite A. unfold scan_lines. rewrite scan_from_app.
    rewrite (scan_from_prose before scan_init eq_refl B). cbn [app].
    change (scan_from ?st (l :: rest)) with (scan_from (scan_step st l) rest).
    rewrite (scan_step_match _ _ C).
    rewrite scan_from_latched by reflexivity. reflexivity.
Qed.



Lemma split_on_no_sep (sep : char) (s : str) :
  forall l, In l (split_on sep s) -> ~ In sep l.
Proof.
  induction s as [| c s IH]; intros l Hl.
  - destruct Hl as [<- | []]. intros [].
  - cbn [split_on] in Hl. destruct (char_eqb c sep) eqn:E.
    + destruct Hl as [<- | Hl]; [intros [] | apply IH; exact Hl].
    + destruct (split_on sep s) as [| l0 ls].
      * destruct Hl as [<- | []]. intros [-> | []].
        unfold char_eqb in E. rewrite N.eqb_refl in E. discriminate.
      * destruct Hl as [<- | Hl].
        -- intros [-> | H].
           ++ unfold char_eqb in E. rewrite N.eqb_refl in E. discriminate.
           ++ apply (IH l0 (or_introl eq_refl)). exact H.
        -- apply IH. right. exact Hl.
Qed.

Lemma join_In (sep : str) (c : char) (parts : list str) :
  In c (join sep parts) -> In c sep \/ exists l, In l parts /\ In c l.
Proof.
  induction parts as [| p ps IH]; cbn [join].
  - intros [].
  - destruct ps as [| q ps'].
    + intros H. right. exists p. split; [left; reflexivity | exact H].
    + intros H. apply in_app_or in H. destruct H as [H | H].
      * right. exists p. split; [left; reflexivity | exact H].
      * apply in_app_or in H. destruct H as [H | H]; [left; exact H | ].
        destruct (IH H) as [A | [l [A B]]]; [left; exact A | ].
        right. exists l. split; [right; exact A | exact B].
Qed.

Lemma drop_while_In (f : char -> bool) (c : char) (s : str) :
  In c (drop_while f s) -> In c s.
Proof.
  induction s as [| a s IH]; cbn; [tauto | ].
  destruct (f a); [intros H; right; apply IH; exact H | cbn; tauto].
Qed.

Lemma strip_In (c : char) (s : str) : In c (strip s) -> In c s.
Proof.
  unfold strip, rstrip, lstrip. intros H.
  apply in_rev in H. apply drop_while_In in H. apply in_rev in H.
  apply drop_while_In in H. exact H.
Qed.

Lemma strip_bullet_In (c : char) (s : str) : In c (strip_bullet s) -> In c s.
Proof.
  unfold strip_bullet, lstrip_chars. intros H.
  apply strip_In in H. apply drop_while_In in H. exact H.
Qed.

(** X4. The summary of a success payload is a single line without
    whitespace at either end, and no key point holds a line break. *)
Theorem summary_is_one_line
    (w : world) (url : option str) (log log' : list event) (p : payload) :
  summarize_video w url log = (Return (Response 200 (SummaryBody p)), log') ->
  ~ In LF (p_summary p)
  /\ (forall c, hd_error (p_summary p) = Some c -> is_space c = false)
  /\ (forall c, hd_error (rev (p_summary p)) = Some c -> is_space c = false)
  /\ forall k, In k (p_keyPoints p) -> ~ In LF k.
Proof.
  intros Hrun.
  destruct (payload_from_output w url log log' p Hrun) as [out [_ [_ [B C]]]].
  rewrite B, C. unfold summary_of, key_points_of. rewrite scan_lines_split.
  cbn [summary_lines bullets].
  destruct (split_at_bullet_spec (split_on LF out)) as [S1 _].
  split; [ | split; [ | split]].
  - intros H. apply strip_In in H. apply join_In in H.
    destruct H as [[E | []] | [l [Hl Hc]]]; [discriminate E | ].
    apply (split_on_no_sep LF out l); [ | exact Hc].
    rewrite S1. apply in_or_app. left. exact Hl.
  - intros c. apply strip_head_not_space.
  - intros c. apply strip_last_not_space.
  - intros k Hk. apply non_empty_In in Hk. destruct Hk as [Hk _].
    apply in_map_iff in Hk. destruct Hk as [l [<- Hl]].
    intros H. apply strip_bullet_In in H.
    apply (split_on_no_sep LF out l); [ | exact H].
    rewrite S1. apply in_or_app. right. exact Hl.
Qed.

Lemma summary_is_one_line_witness :
  ~ In LF (lit "Intro line.").
Proof.
  exact (proj1 (summary_is_one_line (world_summary INTRO_EXAMPLE)
                  (Some WATCH_URL) []
                  [GetTranscript VIDEO [lit "en"];
                   GenerateContent (prompt_of (trimmed_text english_entries))]
                  (payload_of (trimmed_text english_entries) INTRO_EXAMPLE None)
                  eq_refl)).
Defined.

(* ===================================================================== *)
(** * Answers of the endpoint *)
(* ===================================================================== *)

(** X5. A request without a URL, with an empty one, or with a URL that
    holds no identifier is answered 400 with its own message, and no
    external service is called. *)
Theorem input_errors_call_nothing (w : world) (url : option str) (log : list event) :
  (falsy url = true ->
   summarize_video w url log
   = (Return (Response 400 (ErrorBody (lit "No URL provided"))), log))
  /\ (forall u, url = Some u -> u <> [] -> extract_video_id u = None ->
      summarize_video w url log
      = (Return (Response 400 (ErrorBody (lit "Invalid YouTube URL"))), log)).
Proof.
  split.
  - destruct url as [[| c u] | ]; cbn; try discriminate; reflexivity.
  - intros u -> Hne Hx. destruct u as [| c u]; [congruence | ].
    unfold summarize_video. rewrite Hx. reflexivity.
Qed.

Lemma input_errors_call_nothing_witness :
  summarize_video world_hindi None []
  = (Return (Response 400 (ErrorBody (lit "No URL provided"))), [])
  /\ summarize_video world_hindi (Some (lit "https://vimeo.com/1234567")) []
     = (Return (Response 400 (ErrorBody (lit "Invalid YouTube URL"))), []).
Proof.
  split.
  - apply (proj1 (input_errors_call_nothing world_hindi None [])). reflexivity.
  - apply (proj2 (input_errors_call_nothing world_hindi
                    (Some (lit "https://vimeo.com/1234567")) [])
                 (lit "https://vimeo.com/1234567") eq_refl).
    + discriminate.
    + reflexivity.
Defined.

Lemma marker_starts_error (msg : str) :
  startswith FAILURE_MARKER (lit "Failed to generate summary: " ++ msg) = true.
Proof. reflexivity. Qed.

(** Once the url is known to be absent or a string, the endpoint answers:
    200 with a payload, 400 with one of three fixed messages, or 500 with
    a message that begins with ["Failed to generate summary:"]. *)
Lemma summarize_video_always_answers
    (w : world) (url : option str) (log : list event) :
  exists r log',
    summarize_video w url log = (Return r, log')
    /\ match resp_body r with
       | SummaryBody _ => status r = 200%Z
       | ErrorBody e =>
           (status r = 400%Z
            /\ (e = lit "No URL provided" \/ e = lit "Invalid YouTube URL"
                \/ e = lit "Transcript disabled for this video"))
           \/ (status r = 500%Z /\ startswith FAILURE_MARKER e = true)
       end.
Proof.
  destruct url as [[| c u] | ].
  - eexists _, _. split; [reflexivity | ]. cbn. left. auto.
  - destruct (extract_video_id (c :: u)) as [vid | ] eqn:Hvid.
    + rewrite (summarize_video_unfold w _ vid log Hvid).
      unfold guarded, bind, on_error.
      destruct (get_transcript_fallback w vid log) as [[tr | e] l1].
      * destruct (generate_summary_with_gemini w (trimmed_text tr) l1)
          as [[[out | ] | e] l2].
        -- destruct (startswith FAILURE_MARKER out) eqn:Hm.
           ++ eexists _, _. split; [reflexivity | ]. cbn. right. auto.
           ++ destruct (fetch_video_info w vid l2) as [[vi | e] l3].
              ** eexists _, _. split; [reflexivity | ]. reflexivity.
              ** eexists _, _. split; [reflexivity | ].
                 destruct (is_TranscriptsDisabled e); cbn;
                   [left | right]; auto using marker_starts_error.
        -- eexists _, _. split; [reflexivity | ]. cbn. right. auto.
        -- eexists _, _. split; [reflexivity | ].
           destruct (is_TranscriptsDisabled e); cbn;
             [left | right]; auto using marker_starts_error.
      * eexists _, _. split; [reflexivity | ].
        destruct (is_TranscriptsDisabled e); cbn;
          [left | right]; auto using marker_starts_error.
    + eexists _, _. unfold summarize_video. rewrite Hvid.
      split; [reflexivity | ]. cbn. left. auto.
  - eexists _, _. split; [reflexivity | ]. cbn. left. auto.
Qed.

(** X7. Whatever exception leaves the transcript retrieval decides the
    answer: [TranscriptsDisabled] (also when it comes from the Hindi
    retrieval) gives 400, any other exception gives 500 with
    ["Failed to generate summary: "] followed by its text; no further
    call is made. *)
Theorem fetch_failure_answer
    (w : world) (url vid : str) (log log1 : list event) (e : exn) :
  extract_video_id url = Some vid ->
  get_transcript_fallback w vid log = (Raise e, log1) ->
  summarize_video w (Some url) log
  = (Return
       (if is_TranscriptsDisabled e
        then Response 400 (ErrorBody (lit "Transcript disabled for this video"))
        else Response 500
               (ErrorBody (lit "Failed to generate summary: " ++ exn_str e))),
     log1).
Proof.
  intros Hvid Hf. rewrite (summarize_video_unfold w url vid log Hvid).
  unfold guarded, bind. rewrite Hf. reflexivity.
Qed.

Lemma fetch_failure_answer_witness :
  summarize_video world_no_track (Some WATCH_URL) []
  = (Return (Response 500
       (ErrorBody (lit "Failed to generate summary: "
                   ++ exn_str (no_transcript "hi")))),
     [GetTranscript VIDEO [lit "en"]; ListTranscripts VIDEO;
      FindTranscript [lit "hi"]])
  /\ summarize_video world_hindi_disabled (Some WATCH_URL) []
     = (Return (Response 400
          (ErrorBody (lit "Transcript disabled for this video"))),
        [GetTranscript VIDEO [lit "en"]; ListTranscripts VIDEO]).
Proof.
  split.
  - apply (fetch_failure_answer world_no_track WATCH_URL VIDEO []
             [GetTranscript VIDEO [lit "en"]; ListTranscripts VIDEO;
              FindTranscript [lit "hi"]] (no_transcript "hi"));
      reflexivity.
  - apply (fetch_failure_answer world_hindi_disabled WATCH_URL VIDEO []
             [GetTranscript VIDEO [lit "en"]; ListTranscripts VIDEO] disabled);
      reflexivity.
Defined.

(** X8. Calls of the transcript retrieval.  The English fetch always comes
    first.  It is the only call when it returns or raises
    [TranscriptsDisabled].  Otherwise the tracks are listed; if that
    raises, its exception is the outcome and nothing more is called;
    else the Hindi track is selected; if that raises, its exception is
    the outcome and nothing is fetched; else the track is fetched and the
    outcome of the fetch is the outcome. *)
Theorem fallback_calls (w : world) (vid : str) (log : list event) :
  (forall t, api_get_transcript w vid [lit "en"] = Return t ->
     get_transcript_fallback w vid log
     = (Return t, log ++ [GetTranscript vid [lit "en"]]))
  /\ (forall e, api_get_transcript w vid [lit "en"] = Raise e ->
      (is_TranscriptsDisabled e = true ->
       get_transcript_fallback w vid log
       = (Raise e, log ++ [GetTranscript vid [lit "en"]]))
      /\ (is_TranscriptsDisabled e = false ->
          (forall e1, api_list_transcripts w vid = Raise e1 ->
             get_transcript_fallback w vid log
             = (Raise e1,
                log ++ [GetTranscript vid [lit "en"]; ListTranscripts vid]))
          /\ (forall tracks, api_list_transcripts w vid = Return tracks ->
              (forall e2, find_transcript tracks [lit "hi"] = Raise e2 ->
                 get_transcript_fallback w vid log
                 = (Raise e2,
                    log ++ [GetTranscript vid [lit "en"]; ListTranscripts vid;
                            FindTranscript [lit "hi"]]))
              /\ (forall hindi, find_transcript tracks [lit "hi"] = Return hindi ->
                 get_transcript_fallback w vid log
                 = (fetch hindi,
                    log ++ [GetTranscript vid [lit "en"]; ListTranscripts vid;
                            FindTranscript [lit "hi"]; FetchTrack]))))).
Proof.
  split.
  - intros t E. apply (fallback_english_ok w vid log t E).
  - intros e E. split.
    + intros D. apply (fallback_disabled w vid log e E D).
    + intros D. rewrite (fallback_other w vid log e E D).
      unfold hindi_retrieval, bind, call. fold HI. split.
      * intros e1 H1. rewrite H1. rewrite <- app_assoc. reflexivity.
      * intros tracks H1. rewrite H1. split.
        -- intros e2 H2. rewrite H2. repeat rewrite <- app_assoc. reflexivity.
        -- intros hindi H2. rewrite H2. repeat rewrite <- app_assoc.
           destruct (fetch hindi); reflexivity.
Qed.

Lemma fallback_calls_witness :
  get_transcript_fallback world_disabled VIDEO []
  = (Raise disabled, [GetTranscript VIDEO [lit "en"]])
  /\ get_transcript_fallback world_hindi_disabled VIDEO []
     = (Raise disabled, [GetTranscript VIDEO [lit "en"]; ListTranscripts VIDEO])
  /\ get_transcript_fallback world_no_track VIDEO []
     = (Raise (no_transcript "hi"),
        [GetTranscript VIDEO [lit "en"]; ListTranscripts VIDEO;
         FindTranscript [lit "hi"]])
  /\ get_transcript_fallback world_hindi VIDEO []
     = (Return hindi_entries,
        [GetTranscript VIDEO [lit "en"]; ListTranscripts VIDEO;
         FindTranscript [lit "hi"]; FetchTrack]).
Proof.
  split; [ | split; [ | split]].
  - apply (proj1 (proj2 (fallback_calls world_disabled VIDEO []) disabled eq_refl)).
    reflexivity.
  - apply (proj1 (proj2 (proj2 (fallback_calls world_hindi_disabled VIDEO [])
                           (no_transcript "en") eq_refl) eq_refl) disabled).
    reflexivity.
  - apply (proj1 (proj2 (proj2 (proj2 (fallback_calls world_no_track VIDEO [])
                                  (no_transcript "en") eq_refl) eq_refl)
                        (TranscriptList (fun _ => Raise (no_transcript "hi")))
                        eq_refl)
                 (no_transcript "hi")).
    reflexivity.
  - apply (proj2 (proj2 (proj2 (proj2 (fallback_calls world_hindi VIDEO [])
                                  (no_transcript "en") eq_refl) eq_refl)
                        (TranscriptList
                           (fun _ => Return (Track (Return hindi_entries))))
                        eq_refl)
                 (Track (Return hindi_entries))).
    reflexivity.
Defined.

(* ===================================================================== *)
(** * Video metadata *)
(* ===================================================================== *)

(** X9. [fetch_video_info] never raises.  Without a metadata key (unset
    or empty) it calls nothing and returns the empty mapping; with a key
    it calls the metadata API once and returns the title, channel title
    and publication date of the first item, or the empty mapping when the
    call raises or returns no item. *)
Theorem fetch_video_info_spec (w : world) (vid : str) (log : list event) :
  (falsy (YT_API_KEY w) = true ->
   fetch_video_info w vid log = (Return None, log))
  /\ (falsy (YT_API_KEY w) = false ->
      fetch_video_info w vid log
      = (Return (match api_videos_list w vid with
                 | Return (snip :: _) => Some (fields_of snip)
                 | Return [] => None
                 | Raise _ => None
                 end),
         log ++ [VideosList vid])).
Proof.
  unfold fetch_video_info. split; intros H; rewrite H; [reflexivity | ].
  unfold try_except, bind, call.
  destruct (api_videos_list w vid) as [[| snip items] | e]; reflexivity.
Qed.

Lemma fetch_video_info_spec_witness :
  fetch_video_info world_hindi VIDEO [] = (Return None, [])
  /\ fetch_video_info world_with_key VIDEO []
     = (Return (Some (fields_of sample_snippet)), [VideosList VIDEO])
  /\ fetch_video_info world_metadata_down VIDEO []
     = (Return None, [VideosList VIDEO]).
Proof.
  split; [ | split].
  - apply (proj1 (fetch_video_info_spec world_hindi VIDEO [])). reflexivity.
  - apply (proj2 (fetch_video_info_spec world_with_key VIDEO [])). reflexivity.
  - apply (proj2 (fetch_video_info_spec world_metadata_down VIDEO [])).
    reflexivity.
Defined.


(** X10. The metadata key and the metadata API influence nothing but the
    [videoInfo] field: with another key and another metadata API the
    endpoint gives the same answer up to that field. *)
Theorem metadata_only_touches_video_info
    (w : world) (key : option str) (videos : str -> outcome (list snippet))
    (url : option str) (log : list event) :
  exists r r',
    fst (summarize_video w url log) = Return r
    /\ fst (summarize_video (with_metadata w key videos) url log) = Return r'
    /\ without_video_info r = without_video_info r'.
Proof.
  destruct url as [[| c u] | ].
  - eexists _, _. repeat split; reflexivity.
  - destruct (extract_video_id (c :: u)) as [vid | ] eqn:Hvid.
    + rewrite (summarize_video_unfold w _ vid log Hvid).
      rewrite (summarize_video_unfold (with_metadata w key videos) _ vid log Hvid).
      unfold guarded, bind, on_error.
      change (get_transcript_fallback (with_metadata w key videos) vid log)
        with (get_transcript_fallback w vid log).
      destruct (get_transcript_fallback w vid log) as [[tr | e] l1].
      * change (generate_summary_with_gemini (with_metadata w key videos)
                  (trimmed_text tr) l1)
          with (generate_summary_with_gemini w (trimmed_text tr) l1).
        destruct (generate_summary_with_gemini w (trimmed_text tr) l1)
          as [[[out | ] | e] l2].
        -- destruct (startswith FAILURE_MARKER out).
           ++ eexists _, _. repeat split; reflexivity.
           ++ destruct (fetch_video_info_returns w vid l2) as [vi [l3 ->]].
              destruct (fetch_video_info_returns (with_metadata w key videos)
                          vid l2) as [vi' [l3' ->]].
              eexists _, _. repeat split; reflexivity.
        -- eexists _, _. repeat split; reflexivity.
        -- eexists _, _. repeat split; reflexivity.
      * eexists _, _. repeat split; reflexivity.
    + unfold summarize_video. rewrite Hvid.
      eexists _, _. repeat split; reflexivity.
  - eexists _, _. repeat split; reflexivity.
Qed.

(** X11. When the first part of the answer has no text, the client
    returns [None], and the endpoint answers 500 (the failed call of
    [startswith] is caught) without calling the metadata API. *)
Theorem missing_text_gives_500
    (w : world) (url vid : str) (log log1 log2 : list event) (tr : transcript) :
  extract_video_id url = Some vid ->
  get_transcript_fallback w vid log = (Return tr, log1) ->
  generate_summary_with_gemini w (trimmed_text tr) log1 = (Return None, log2) ->
  summarize_video w (Some url) log
  = (Return (Response 500
       (ErrorBody (lit "Failed to generate summary: 'NoneType' object has no attribute 'startswith'"))),
     log2).
Proof.
  intros Hvid Hf Hg. rewrite (summarize_video_unfold w url vid log Hvid).
  unfold guarded, bind. rewrite Hf, Hg. reflexivity.
Qed.

Lemma missing_text_gives_500_witness :
  exists msg log',
    summarize_video world_no_text (Some WATCH_URL) []
    = (Return (Response 500 (ErrorBody msg)), log')
    /\ metadata_calls log' = [].
Proof.
  eexists _, _. split.
  - apply (missing_text_gives_500 world_no_text WATCH_URL VIDEO []
             [GetTranscript VIDEO [lit "en"]]
             [GetTranscript VIDEO [lit "en"];
              GenerateContent (prompt_of (trimmed_text english_entries))]
             english_entries); reflexivity.
  - reflexivity.
Defined.

(* ===================================================================== *)
(** * The calls of a request *)
(* ===================================================================== *)



Lemma generate_summary_log (w : world) (text : str) (log : list event) :
  exists o,
    generate_summary_with_gemini w text log
    = (Return o, log ++ [GenerateContent (prompt_of text)]).
Proof.
  unfold generate_summary_with_gemini, bind, call.
  destruct (api_generate_content w (prompt_of text)); eexists; reflexivity.
Qed.




(** X15. Any failure of the generative API (a transport or HTTP error,
    another exception, an answer without the expected structure) makes
    the endpoint answer 500 with a message that begins with
    ["Failed to generate summary:"], after that one call and without a
    call of the metadata API. *)
Theorem api_failure_gives_500
    (w : world) (url vid : str) (log log1 : list event) (tr : transcript) :
  extract_video_id url = Some vid ->
  get_transcript_fallback w vid log = (Return tr, log1) ->
  (forall t, api_generate_content w (prompt_of (trimmed_text tr)) <> Candidate t) ->
  exists msg,
    summarize_video w (Some url) log
    = (Return (Response 500 (ErrorBody msg)),
       log1 ++ [GenerateContent (prompt_of (trimmed_text tr))])
    /\ startswith FAILURE_MARKER msg = true.
Proof.
  intros Hvid Hf Hno.
  destruct (client_failure_has_marker w (trimmed_text tr) log1 Hno)
    as [out [Ho Hm]].
  destruct (generate_summary_log w (trimmed_text tr) log1) as [o Hg].
  rewrite Hg in Ho. cbn in Ho. injection Ho as ->.
  exists out. split; [ | exact Hm].
  exact (run_failure_marker w url vid log Hvid tr log1 Hf out _ Hg Hm).
Qed.

Lemma api_failure_gives_500_witness :
  exists msg,
    summarize_video world_api_down (Some WATCH_URL) []
    = (Return (Response 500 (ErrorBody msg)),
       [GetTranscript VIDEO [lit "en"];
        GenerateContent (prompt_of (trimmed_text english_entries))])
    /\ startswith FAILURE_MARKER msg = true.
Proof.
  apply (api_failure_gives_500 world_api_down WATCH_URL VIDEO []
           [GetTranscript VIDEO [lit "en"]] english_entries).
  - reflexivity.
  - reflexivity.
  - intros t. discriminate.
Defined.

(* ===================================================================== *)
(** * Bounds on the payload *)
(* ===================================================================== *)

(** Two tokens are separated by at least one character. *)
Lemma split_from_length_tight (s : str) :
  forall word,
    (2 * List.length (split_from word s)
     <= List.length s + match word with [] => 1 | _ :: _ => 2 end)%nat.
Proof.
  induction s as [| c s IH]; intros word.
  - destruct word; cbn; lia.
  - cbn [split_from]. destruct (is_space c).
    + destruct word; specialize (IH []); cbn in *; lia.
    + specialize (IH (c :: word)). cbn in *. destruct word; lia.
Qed.

Lemma split_len_tight (s : str) : (2 * len (split s) <= len s + 1)%Z.
Proof.
  unfold len, split. pose proof (split_from_length_tight s []) as H.
  cbn in H. lia.
Qed.

(** X13. In a success payload the transcript is a prefix, of at most 4000
    characters, of the entries' texts joined by spaces; the word count is
    at most 2000; the reading time is one of [0.0, 0.1, ..., 10.0]; the
    tags are the four fixed ones. *)
Theorem payload_bounds
    (w : world) (url : option str) (log log' : list event) (p : payload) :
  summarize_video w url log = (Return (Response 200 (SummaryBody p)), log') ->
  (len (p_transcript p) <= 4000)%Z
  /\ (exists u vid tr log1 rest,
         url = Some u
         /\ extract_video_id u = Some vid
         /\ get_transcript_fallback w vid log = (Return tr, log1)
         /\ join [SPACE] (List.map text_of tr) = p_transcript p ++ rest)
  /\ (0 <= p_wordCount p <= 2000)%Z
  /\ (exists n : Z, (0 <= n <= 100)%Z
                    /\ p_readingTime p = PyFloat.truediv n 10)
  /\ p_tags p = [lit "AI"; lit "Gemini"; lit "YouTube"; lit "Summary"].
Proof.
  intros Hrun.
  destruct (summarize_video_200 w url log log' p Hrun)
    as [u [vid [tr [l1 [out [l2 [vi [Hu [Hx [Hf [_ [_ [_ ->]]]]]]]]]]]]].
  cbn [payload_of p_transcript p_wordCount p_readingTime p_tags].
  pose proof (trim_len (join [SPACE] (List.map text_of tr))) as L.
  fold (trimmed_text tr) in L. unfold MAX_CHARS in L.
  pose proof (split_len (trimmed_text tr)) as A.
  pose proof (split_len_tight (trimmed_text tr)) as B.
  split; [exact L | ]. split.
  - destruct (trim_is_prefix (join [SPACE] (List.map text_of tr))) as [rest E].
    exists u, vid, tr, l1, rest. unfold trimmed_text.
    split; [exact Hu | ]. split; [exact Hx | ]. split; [exact Hf | exact E].
  - split; [lia | ]. split; [ | reflexivity].
    destruct (reading_time_nearest_tenth (len (split (trimmed_text tr)))
                ltac:(lia)) as [n [E D]].
    exists n. split; [lia | exact E].
Qed.

Lemma payload_bounds_witness :
  (len (p_transcript payload_400) <= 4000)%Z
  /\ (0 <= p_wordCount payload_400 <= 2000)%Z
  /\ exists tr rest,
       api_get_transcript world_400 VIDEO [lit "en"] = Return tr
       /\ join [SPACE] (List.map text_of tr) = p_transcript payload_400 ++ rest.
Proof.
  assert (Hrun : summarize_video world_400 (Some WATCH_URL) []
                 = (Return (Response 200 (SummaryBody payload_400)),
                    [GetTranscript VIDEO [lit "en"];
                     GenerateContent (prompt_of (trimmed_text four_hundred_words))])).
  { vm_compute. reflexivity. }
  pose proof (payload_bounds world_400 (Some WATCH_URL) [] _ payload_400 Hrun) as H.
  split; [exact (proj1 H) | ]. split; [exact (proj1 (proj2 (proj2 H))) | ].
  destruct (proj1 (proj2 H)) as [u [vid [tr [l1 [rest [Hu [Hx [Hf E]]]]]]]].
  exists tr, rest. split; [ | exact E].
  injection Hu as <-.
  assert (Ev : vid = VIDEO).
  { assert (X : extract_video_id WATCH_URL = Some VIDEO) by reflexivity.
    rewrite X in Hx. injection Hx as Hx. symmetry. exact Hx. }
  subst vid.
  rewrite (fallback_english_ok world_400 VIDEO [] four_hundred_words eq_refl) in Hf.
  injection Hf as <- _. reflexivity.
Defined.

Lemma split_from_nil (s : str) :
  forall word, split_from word s = [] <-> word = [] /\ forallb is_space s = true.
Proof.
  induction s as [| c s IH]; intros word.
  - cbn. destruct word; split; try tauto; try discriminate.
    intros [H _]. discriminate.
  - cbn [split_from forallb]. destruct (is_space c); cbn [andb].
    + destruct word.
      * rewrite IH. tauto.
      * split; [discriminate | intros [H _]; discriminate].
    + rewrite IH. split; [intros [H _]; discriminate | intros [_ H]; discriminate].
Qed.

(** X14. The word count of a success payload is 0 exactly when its
    transcript is empty or all whitespace (no entries, or entries without
    text, still give an answer), and the reading time is then [0.0]. *)
Theorem blank_transcript_counts_zero
    (w : world) (url : option str) (log log' : list event) (p : payload) :
  summarize_video w url log = (Return (Response 200 (SummaryBody p)), log') ->
  (p_wordCount p = 0%Z <-> forallb is_space (p_transcript p) = true)
  /\ (p_wordCount p = 0%Z -> p_readingTime p = S754_zero false).
Proof.
  intros Hrun.
  destruct (summarize_video_200 w url log log' p Hrun)
    as [u [vid [tr [l1 [out [l2 [vi [_ [_ [_ [_ [_ [_ ->]]]]]]]]]]]]].
  cbn [payload_of p_transcript p_wordCount p_readingTime].
  split.
  - pose proof (split_from_nil (trimmed_text tr) []) as N.
    unfold len, split.
    destruct (split_from [] (trimmed_text tr)) as [| t ts]; cbn; split; intros H.
    + apply N. reflexivity.
    + reflexivity.
    + lia.
    + exfalso. assert (F : t :: ts = []) by (apply N; auto). discriminate.
  - intros ->. reflexivity.
Qed.

Lemma blank_transcript_counts_zero_witness :
  exists p log',
    summarize_video world_silent (Some WATCH_URL) []
    = (Return (Response 200 (SummaryBody p)), log')
    /\ p_transcript p = []
    /\ p_wordCount p = 0%Z
    /\ p_readingTime p = S754_zero false.
Proof.
  eexists _, _. split; [reflexivity | ]. split; [reflexivity | ].
  pose proof (blank_transcript_counts_zero world_silent (Some WATCH_URL) []
                _ _ eq_refl) as H.
  assert (Z : p_wordCount (payload_of (trimmed_text []) (lit "Nothing is said.") None) = 0%Z).
  { apply (proj1 H). reflexivity. }
  split; [exact Z | exact (proj2 H Z)].
Defined.

(* ===================================================================== *)
(** * Reading the answer of the generative-language API *)
(* ===================================================================== *)

Lemma lookup_some_nonempty (key : str) (fields : list (str * json)) (v : json) :
  lookup key fields = Some v -> truthy (JDict fields) = true.
Proof.
  destruct fields; [discriminate | reflexivity].
Qed.

(** X16. On an answer of the expected structure (a dict whose
    [candidates] is a list that starts with a dict, whose [content] is a
    dict, whose [parts] is a list that starts with a dict) the client
    returns the [text] of the first part of the first candidate, [None]
    when that part has no [text]; further candidates, further parts and
    other keys play no role. *)
Theorem read_result_expected
    (top cand content part : list (str * json)) (more_c more_p : list json) :
  lookup CANDIDATES top = Some (JList (JDict cand :: more_c)) ->
  lookup CONTENT cand = Some (JDict content) ->
  lookup PARTS content = Some (JList (JDict part :: more_p)) ->
  client_value (HttpJson (JDict top))
  = match lookup TEXT part with
    | Some t => t
    | None => JNull
    end.
Proof.
  intros Hc Hk Hp.
  pose proof (lookup_some_nonempty _ _ _ Hp) as Tk.
  unfold client_value, read_result, expected_structure, first_text,
    first_candidate, holds, positive_len, and_also, and_then, item, get,
    len_of, first.
  rewrite Hc. cbn [truthy]. rewrite Hk, Tk, Hp. cbn [truthy].
  replace (0 <? len (JDict cand :: more_c))%Z with true
    by (symmetry; apply Z.ltb_lt; unfold len; cbn; lia).
  replace (0 <? len (JDict part :: more_p))%Z with true
    by (symmetry; apply Z.ltb_lt; unfold len; cbn; lia).
  destruct (lookup TEXT part); reflexivity.
Qed.

Lemma read_result_expected_witness :
  client_value (HttpJson sample_answer) = JStr INTRO_EXAMPLE.
Proof.
  apply (read_result_expected
           [(CANDIDATES,
             JList [JDict [(CONTENT,
                            JDict [(PARTS, JList [JDict [(TEXT, JStr INTRO_EXAMPLE)]]);
                                   (lit "role", JStr (lit "model"))]);
                           (lit "finishReason", JStr (lit "STOP"))]]);
            (lit "modelVersion", JStr (lit "gemini-2.0-flash"))]
           [(CONTENT,
             JDict [(PARTS, JList [JDict [(TEXT, JStr INTRO_EXAMPLE)]]);
                    (lit "role", JStr (lit "model"))]);
            (lit "finishReason", JStr (lit "STOP"))]
           [(PARTS, JList [JDict [(TEXT, JStr INTRO_EXAMPLE)]]);
            (lit "role", JStr (lit "model"))]
           [(TEXT, JStr INTRO_EXAMPLE)] [] []); reflexivity.
Defined.

(** X17. The client returns
    ["Failed to generate summary: Unexpected API response."] when
    [candidates] is missing or falsy (null, an empty list, ...), when the
    first candidate is a dict whose [content] is missing or falsy, and
    when that content is a dict whose [parts] is missing or falsy. *)
Theorem read_result_unexpected (top : list (str * json)) :
  (forall v, get (JDict top) CANDIDATES = Return v -> truthy v = false ->
             client_value (HttpJson (JDict top)) = JStr UNEXPECTED)
  /\ (forall cand more v,
        lookup CANDIDATES top = Some (JList (JDict cand :: more)) ->
        get (JDict cand) CONTENT = Return v -> truthy v = false ->
        client_value (HttpJson (JDict top)) = JStr UNEXPECTED)
  /\ (forall cand more content v,
        lookup CANDIDATES top = Some (JList (JDict cand :: more)) ->
        lookup CONTENT cand = Some (JDict content) -> content <> [] ->
        get (JDict content) PARTS = Return v -> truthy v = false ->
        client_value (HttpJson (JDict top)) = JStr UNEXPECTED).
Proof.
  split; [ | split].
  - intros v Hg Hv.
    unfold client_value, read_result, expected_structure, holds, and_also,
      and_then at 1 2.
    rewrite Hg, Hv. reflexivity.
  - intros cand more v Hc Hg Hv.
    unfold client_value, read_result, expected_structure, first_candidate,
      holds, positive_len, and_also, and_then, item, len_of, first.
    unfold get at 1. rewrite Hc. cbn [truthy].
    replace (0 <? len (JDict cand :: more))%Z with true
      by (symmetry; apply Z.ltb_lt; unfold len; cbn; lia).
    rewrite Hg, Hv. reflexivity.
  - intros cand more content v Hc Hk Hne Hg Hv.
    assert (Tk : truthy (JDict content) = true)
      by (destruct content; [congruence | reflexivity]).
    unfold client_value, read_result, expected_structure, first_candidate,
      holds, positive_len, and_also, and_then, item, len_of, first.
    unfold get at 1 2. rewrite Hc. cbn [truthy]. rewrite Hk, Tk.
    replace (0 <? len (JDict cand :: more))%Z with true
      by (symmetry; apply Z.ltb_lt; unfold len; cbn; lia).
    rewrite Hg, Hv. reflexivity.
Qed.

Lemma read_result_unexpected_witness :
  client_value (HttpJson (JDict [])) = JStr UNEXPECTED
  /\ client_value (HttpJson (JDict [(CANDIDATES, JList [])])) = JStr UNEXPECTED
  /\ client_value (HttpJson (JDict [(CANDIDATES,
        JList [JDict [(lit "finishReason", JStr (lit "SAFETY"))]])]))
     = JStr UNEXPECTED.
Proof.
  split; [ | split].
  - apply (proj1 (read_result_unexpected []) JNull); reflexivity.
  - apply (proj1 (read_result_unexpected [(CANDIDATES, JList [])]) (JList []));
      reflexivity.
  - apply (proj1 (proj2 (read_result_unexpected
             [(CANDIDATES, JList [JDict [(lit "finishReason", JStr (lit "SAFETY"))]])]))
             [(lit "finishReason", JStr (lit "SAFETY"))] [] JNull);
      reflexivity.
Defined.

Lemma marker_on_error (e : exn) :
  startswith FAILURE_MARKER (lit "Failed to generate summary: " ++ exn_str e)
  = true.
Proof. apply marker_starts_error. Qed.

(** X18. Whatever the HTTP call produces (any exception, any JSON value
    of any structure), the client returns a value instead of raising, and
    unless the answer has the expected structure and its first part is
    read, that value is a string that begins with
    ["Failed to generate summary:"].  In particular an answer that is not
    a JSON object gives such a string. *)
Theorem client_value_total (h : http_outcome) :
  ((exists result text,
       h = HttpJson result
       /\ expected_structure result = Return true
       /\ first_text result = Return text
       /\ client_value h = text)
   \/ (exists s, client_value h = JStr s
                 /\ startswith FAILURE_MARKER s = true))
  /\ (forall result,
        h = HttpJson result -> (forall fields, result <> JDict fields) ->
        exists s, client_value h = JStr s
                  /\ startswith FAILURE_MARKER s = true).
Proof.
  split.
  - destruct h as [e | e | result]; cbn [client_value].
    + right. eexists. split; [reflexivity | reflexivity].
    + right. eexists. split; [reflexivity | apply marker_on_error].
    + unfold read_result, and_then at 1.
      destruct (expected_structure result) as [[ | ] | e] eqn:E.
      * destruct (first_text result) as [text | e] eqn:F.
        -- left. exists result, text. auto.
        -- right. eexists. split; [reflexivity | apply marker_on_error].
      * right. eexists. split; [reflexivity | reflexivity].
      * right. eexists. split; [reflexivity | apply marker_on_error].
  - intros result -> Hnd.
    destruct result; try (eexists; split; reflexivity).
    exfalso. apply (Hnd fields). reflexivity.
Qed.

Lemma client_value_total_witness :
  exists s, client_value (HttpJson (JList [JStr (lit "error")])) = JStr s
            /\ startswith FAILURE_MARKER s = true.
Proof.
  apply (proj2 (client_value_total (HttpJson (JList [JStr (lit "error")])))
               (JList [JStr (lit "error")]) eq_refl).
  intros fields. discriminate.
Defined.

(** X6. Whether the endpoint answers.  When the parsed body is falsy or an
    object and its url is falsy or a string, the endpoint answers: 200
    with a payload, 400 with one of three fixed messages, or 500 with a
    message that begins with ["Failed to generate summary:"].  Lines
    141-147 are outside the [try]: a truthy body that is no object, a
    truthy url that is no string and an exception of [get_json] make an
    exception leave the function, before any external call. *)
Theorem summarize_request_answers
    (w : world) (body : outcome json) (log : list event) :
  (forall parsed, body = Return parsed ->
     (truthy parsed = false \/ exists fields, parsed = JDict fields) ->
     (forall v, get (if truthy parsed then parsed else JDict []) URL = Return v ->
                truthy v = false \/ exists s, v = JStr s) ->
     exists r log',
       summarize_request w body log = (Return r, log')
       /\ match resp_body r with
          | SummaryBody _ => status r = 200%Z
          | ErrorBody e =>
              (status r = 400%Z
               /\ (e = lit "No URL provided" \/ e = lit "Invalid YouTube URL"
                   \/ e = lit "Transcript disabled for this video"))
              \/ (status r = 500%Z /\ startswith FAILURE_MARKER e = true)
          end)
  /\ (forall parsed, body = Return parsed ->
        truthy parsed = true -> (forall fields, parsed <> JDict fields) ->
        exists e, summarize_request w body log = (Raise e, log)
                  /\ exn_cls e = OtherException "AttributeError")
  /\ (forall fields v, body = Return (JDict fields) ->
        lookup URL fields = Some v ->
        truthy v = true -> (forall s, v <> JStr s) ->
        exists e, summarize_request w body log = (Raise e, log)
                  /\ exn_cls e = OtherException "TypeError")
  /\ (forall e, body = Raise e ->
        summarize_request w body log = (Raise e, log)).
Proof.
  split; [ | split; [ | split]].
  - intros parsed -> Hbody Hurl. unfold summarize_request.
    set (data := if truthy parsed then parsed else JDict []) in *.
    assert (Hd : exists fields, data = JDict fields).
    { subst data. destruct (truthy parsed) eqn:T; [ | eauto].
      destruct Hbody as [F | H]; [congruence | exact H]. }
    destruct Hd as [fields Hd]. rewrite Hd in *.
    assert (G : exists v, get (JDict fields) URL = Return v).
    { cbn [get]. destruct (lookup URL fields); eauto. }
    destruct G as [v G]. rewrite G.
    destruct (Hurl v G) as [F | [s ->]].
    + rewrite F. apply summarize_video_always_answers.
    + destruct (truthy (JStr s)); apply summarize_video_always_answers.
  - intros parsed -> T Hnd. unfold summarize_request. rewrite T.
    destruct parsed; try (eexists; split; reflexivity).
    exfalso. apply (Hnd fields). reflexivity.
  - intros fields v -> Hl T Hns. unfold summarize_request.
    assert (Tf : truthy (JDict fields) = true)
      by (apply (lookup_some_nonempty URL fields v Hl)).
    rewrite Tf. cbn [get]. rewrite Hl, T.
    destruct v; try (eexists; split; reflexivity).
    exfalso. apply (Hns s). reflexivity.
  - intros e ->. reflexivity.
Qed.

Lemma summarize_request_answers_witness :
  (exists r log',
      summarize_request world_disabled
        (Return (JDict [(URL, JStr WATCH_URL)])) []
      = (Return r, log'))
  /\ (exists e, summarize_request world_disabled
                  (Return (JList [JStr WATCH_URL])) []
                = (Raise e, [])
                /\ exn_cls e = OtherException "AttributeError")
  /\ (exists e, summarize_request world_disabled
                  (Return (JDict [(URL, JInt 123)])) []
                = (Raise e, [])
                /\ exn_cls e = OtherException "TypeError").
Proof.
  split; [ | split].
  - destruct (proj1 (summarize_request_answers world_disabled
                       (Return (JDict [(URL, JStr WATCH_URL)])) [])
                    (JDict [(URL, JStr WATCH_URL)]) eq_refl)
      as [r [log' [H _]]].
    + right. eexists. reflexivity.
    + intros v Hv. right. exists WATCH_URL.
      cbn in Hv. injection Hv as <-. reflexivity.
    + exists r, log'. exact H.
  - apply (proj1 (proj2 (summarize_request_answers world_disabled
                           (Return (JList [JStr WATCH_URL])) []))
                 (JList [JStr WATCH_URL]) eq_refl eq_refl).
    intros fields. discriminate.
  - apply (proj1 (proj2 (proj2 (summarize_request_answers world_disabled
                                  (Return (JDict [(URL, JInt 123)])) [])))
                 [(URL, JInt 123)] (JInt 123) eq_refl eq_refl eq_refl).
    intros s. discriminate.
Defined.

(* ===================================================================== *)
(** * What follows the identifier, and the order of the patterns *)
(* ===================================================================== *)

Lemma match_at_token_then (pat t post : str) :
  is_token t = true -> match_at pat (pat ++ t ++ post) = Some t.
Proof.
  intros H. apply match_at_iff. split; [exact H | ]. exists post. reflexivity.
Qed.

Section ShapesWithSuffix.

Variables (t post : str).
Hypothesis token : is_token t = true.

Lemma search_v_watch_suffix :
  re_search (lit "v=") (WATCH_PREFIX ++ t ++ post) = Some t.
Proof.
  expose WATCH_PREFIX. skip_mismatches.
  rewrite re_search_cons.
  change (118%N :: 61%N :: t ++ post) with (lit "v=" ++ t ++ post).
  rewrite (match_at_token_then _ _ _ token). reflexivity.
Qed.

Lemma search_short_suffix :
  re_search (lit "youtu.be/") (SHORT_PREFIX ++ t ++ post) = Some t.
Proof.
  expose SHORT_PREFIX. skip_mismatches.
  rewrite re_search_cons.
  match goal with
  | |- context [match_at _ ?s] => change s with (lit "youtu.be/" ++ t ++ post)
  end.
  rewrite (match_at_token_then _ _ _ token). reflexivity.
Qed.

Lemma search_embed_suffix :
  re_search (lit "embed/") (EMBED_PREFIX ++ t ++ post) = Some t.
Proof.
  expose EMBED_PREFIX. skip_mismatches.
  rewrite re_search_cons.
  match goal with
  | |- context [match_at _ ?s] => change s with (lit "embed/" ++ t ++ post)
  end.
  rewrite (match_at_token_then _ _ _ token). reflexivity.
Qed.

End ShapesWithSuffix.

(** X20. Whatever follows the identifier is ignored: a watch URL followed
    by anything yields its token, and so do a short URL and an embed URL
    followed by anything in which no pattern of higher rank matches. *)
Theorem extract_ignores_suffix (t post : str) :
  is_token t = true ->
  extract_video_id (WATCH_PREFIX ++ t ++ post) = Some t
  /\ (~ occurs (lit "v=") (SHORT_PREFIX ++ t ++ post) ->
      extract_video_id (SHORT_PREFIX ++ t ++ post) = Some t)
  /\ (~ occurs (lit "v=") (EMBED_PREFIX ++ t ++ post) ->
      ~ occurs (lit "youtu.be/") (EMBED_PREFIX ++ t ++ post) ->
      extract_video_id (EMBED_PREFIX ++ t ++ post) = Some t).
Proof.
  intros Ht. split; [ | split].
  - rewrite extract_video_id_unfold, (search_v_watch_suffix t post Ht).
    reflexivity.
  - intros H1. apply re_search_none_iff in H1.
    rewrite extract_video_id_unfold, H1, (search_short_suffix t post Ht).
    reflexivity.
  - intros H1 H2. apply re_search_none_iff in H1. apply re_search_none_iff in H2.
    rewrite extract_video_id_unfold, H1, H2, (search_embed_suffix t post Ht).
    reflexivity.
Qed.

Lemma extract_ignores_suffix_witness :
  extract_video_id (lit "https://www.youtube.com/watch?v=dQw4w9WgXcQ&t=42s")
  = Some (lit "dQw4w9WgXcQ")
  /\ extract_video_id (lit "https://youtu.be/dQw4w9WgXcQ?t=42")
     = Some (lit "dQw4w9WgXcQ").
Proof.
  split.
  - apply (proj1 (extract_ignores_suffix (lit "dQw4w9WgXcQ") (lit "&t=42s")
                    eq_refl)).
  - apply (proj1 (proj2 (extract_ignores_suffix (lit "dQw4w9WgXcQ")
                           (lit "?t=42") eq_refl))).
    apply re_search_none_iff. reflexivity.
Defined.

Lemma id_char_not_equals (c : char) : id_char c = true -> char_eqb 61%N c = false.
Proof.
  intros H. unfold char_eqb. destruct (N.eqb_spec 61%N c) as [<- | ]; [ | reflexivity].
  discriminate H.
Qed.

Lemma match_at_v_needs_equals (a b : char) (s : str) :
  char_eqb 61%N b = false -> match_at (lit "v=") (a :: b :: s) = None.
Proof.
  intros H. unfold match_at. cbn [lit List.map list_ascii_of_string startswith].
  change (N_of_ascii "=") with 61%N. rewrite H.
  rewrite andb_false_r. reflexivity.
Qed.

(** The pattern [v=] has no match that starts inside a run of identifier
    characters followed by something else than [=]. *)
Lemma re_search_v_skips_ids (ids rest : str) :
  forallb id_char ids = true ->
  match rest with [] => True | c :: _ => char_eqb 61%N c = false end ->
  re_search (lit "v=") (ids ++ rest) = re_search (lit "v=") rest.
Proof.
  intros Hids Hrest. induction ids as [| a ids IH]; [reflexivity | ].
  cbn [forallb] in Hids. apply andb_true_iff in Hids. destruct Hids as [Ha Hi].
  cbn [app]. rewrite re_search_skip; [apply IH; exact Hi | ].
  destruct ids as [| b ids].
  - cbn [app]. destruct rest as [| c rest].
    + unfold match_at. cbn [lit List.map list_ascii_of_string startswith].
      rewrite andb_false_r. reflexivity.
    + apply match_at_v_needs_equals. exact Hrest.
  - cbn [app]. apply match_at_v_needs_equals.
    cbn [forallb] in Hi. apply andb_true_iff in Hi. destruct Hi as [Hb _].
    apply id_char_not_equals. exact Hb.
Qed.

(** X21. The rank of a pattern beats its position: when a short URL
    carries a [v=] parameter, the identifier returned is the one of the
    parameter, not the one after [youtu.be/]. *)
Theorem v_parameter_beats_short_url (t1 t2 : str) :
  is_token t1 = true -> is_token t2 = true ->
  extract_video_id (SHORT_PREFIX ++ t1 ++ lit "?v=" ++ t2) = Some t2
  /\ re_search (lit "youtu.be/") (SHORT_PREFIX ++ t1 ++ lit "?v=" ++ t2) = Some t1.
Proof.
  intros H1 H2. split; [ | apply (search_short_suffix t1 _ H1)].
  rewrite extract_video_id_unfold.
  assert (S : re_search (lit "v=") (SHORT_PREFIX ++ t1 ++ lit "?v=" ++ t2) = Some t2).
  { expose SHORT_PREFIX. skip_mismatches.
    rewrite re_search_v_skips_ids.
    - change (lit "?v=" ++ t2) with (63%N :: lit "v=" ++ t2).
      rewrite re_search_skip by reflexivity.
      destruct t2 as [| c t2]; [discriminate H2 | ].
      change (lit "v=" ++ c :: t2) with (118%N :: 61%N :: c :: t2).
      rewrite re_search_cons.
      change (118%N :: 61%N :: c :: t2) with (lit "v=" ++ (c :: t2)).
      rewrite (match_at_exact _ _ H2). reflexivity.
    - unfold is_token in H1. apply andb_true_iff in H1. tauto.
    - reflexivity. }
  rewrite S. reflexivity.
Qed.

Lemma v_parameter_beats_short_url_witness :
  extract_video_id (lit "https://youtu.be/dQw4w9WgXcQ?v=9bZkp7q19f0")
  = Some (lit "9bZkp7q19f0").
Proof.
  apply (proj1 (v_parameter_beats_short_url (lit "dQw4w9WgXcQ")
                  (lit "9bZkp7q19f0") eq_refl eq_refl)).
Defined.

(* ===================================================================== *)
(** * [utils/youtube.py]: the extractor and [get_transcript] *)
(* ===================================================================== *)

Lemma take_while_spec (f : char -> bool) (s : str) :
  exists rest,
    s = Youtube.take_while f s ++ rest
    /\ (forall c, In c (Youtube.take_while f s) -> f c = true)
    /\ match rest with [] => True | c :: _ => f c = false end.
Proof.
  induction s as [| a s IH]; cbn.
  - exists []. split; [reflexivity | split; [intros c [] | exact I]].
  - destruct (f a) eqn:Fa.
    + destruct IH as [rest [A [B C]]]. exists rest. cbn.
      split; [f_equal; exact A | split; [ | exact C]].
      intros c [<- | H]; [exact Fa | apply B; exact H].
    + exists (a :: s). split; [reflexivity | split; [intros c [] | exact Fa]].
Qed.

Lemma take_while_app (f : char -> bool) (g rest : str) :
  (forall c, In c g -> f c = true) ->
  match rest with [] => True | c :: _ => f c = false end ->
  Youtube.take_while f (g ++ rest) = g.
Proof.
  intros Hg Hrest. induction g as [| a g IH]; cbn [app Youtube.take_while].
  - destruct rest as [| c rest]; [reflexivity | ].
    cbn [Youtube.take_while]. rewrite Hrest. reflexivity.
  - rewrite (Hg a (or_introl eq_refl)). f_equal. apply IH.
    intros c Hc. apply Hg. right. exact Hc.
Qed.

Lemma not_amp_true (c : char) : not_amp c = true <-> c <> Youtube.AMPERSAND.
Proof.
  unfold not_amp, char_eqb. destruct (N.eqb_spec c Youtube.AMPERSAND); cbn;
    split; intros H; congruence.
Qed.

Lemma not_amp_false (c : char) : not_amp c = false <-> c = Youtube.AMPERSAND.
Proof.
  unfold not_amp, char_eqb. destruct (N.eqb_spec c Youtube.AMPERSAND); cbn;
    split; intros H; congruence.
Qed.

(** A match of [v=([^&]+)] at the start. *)
Lemma youtube_match_at_iff (s g : str) :
  Youtube.match_at s = Some g <->
  g <> [] /\ ~ In Youtube.AMPERSAND g
  /\ exists post, s = lit "v=" ++ g ++ post
                  /\ match post with
                     | [] => True
                     | c :: _ => c = Youtube.AMPERSAND
                     end.
Proof.
  unfold Youtube.match_at, Youtube.group. fold not_amp. split.
  - destruct (startswith (lit "v=") s) eqn:Hs; [ | discriminate].
    apply startswith_inv in Hs. change (List.length (lit "v=")) with 2%nat in Hs.
    destruct (take_while_spec not_amp (skipn 2 s)) as [rest [A [B C]]].
    destruct (Youtube.take_while not_amp (skipn 2 s)) as [| a g0] eqn:E;
      [discriminate | ].
    intros H. injection H as <-. split; [discriminate | ]. split.
    + intros Hin. apply B in Hin. apply not_amp_true in Hin. congruence.
    + exists rest. split; [rewrite Hs at 1; rewrite A; reflexivity | ].
      destruct rest as [| c rest]; [exact I | apply not_amp_false; exact C].
  - intros [Hne [Hamp [post [-> Hpost]]]].
    rewrite startswith_app.
    change (skipn 2 (lit "v=" ++ g ++ post)) with (g ++ post).
    rewrite take_while_app.
    + destruct g; [congruence | reflexivity].
    + intros c Hc. apply not_amp_true. intros ->. exact (Hamp Hc).
    + destruct post as [| c post]; [exact I | apply not_amp_false; exact Hpost].
Qed.

Lemma youtube_match_at_none (s : str) :
  Youtube.match_at s = None <->
  forall c post, s = lit "v=" ++ c :: post -> c = Youtube.AMPERSAND.
Proof.
  split.
  - intros H c post ->. unfold Youtube.match_at, Youtube.group in H.
    rewrite (startswith_app (lit "v=") (c :: post)) in H.
    change (skipn 2 (lit "v=" ++ c :: post)) with (c :: post) in H.
    cbn [Youtube.take_while] in H.
    destruct (negb (char_eqb c Youtube.AMPERSAND)) eqn:E; [discriminate | ].
    apply not_amp_false. exact E.
  - intros H. destruct (Youtube.match_at s) as [g | ] eqn:E; [ | reflexivity].
    apply youtube_match_at_iff in E.
    destruct E as [Hne [Hamp [post [-> _]]]].
    destruct g as [| c g]; [congruence | ].
    exfalso. apply Hamp. left. apply (H c (g ++ post)). reflexivity.
Qed.

Lemma youtube_re_search_cons (c : char) (s : str) :
  Youtube.re_search (c :: s)
  = match Youtube.match_at (c :: s) with
    | Some g => Some g
    | None => Youtube.re_search s
    end.
Proof. reflexivity. Qed.

Lemma youtube_re_search_skip (c : char) (s : str) :
  Youtube.match_at (c :: s) = None ->
  Youtube.re_search (c :: s) = Youtube.re_search s.
Proof.
  intros H. rewrite youtube_re_search_cons, H. reflexivity.
Qed.

Lemma youtube_extract_some (url : str) :
  forall g, Youtube.extract_video_id url = Some g ->
     g <> [] /\ ~ In Youtube.AMPERSAND g
     /\ exists pre post,
          url = pre ++ lit "v=" ++ g ++ post
          /\ match post with [] => True | c :: _ => c = Youtube.AMPERSAND end
          /\ forall pre' c post',
               url = pre' ++ lit "v=" ++ c :: post' -> c <> Youtube.AMPERSAND ->
               (List.length pre <= List.length pre')%nat.
Proof.
  unfold Youtube.extract_video_id.
  induction url as [| a url IH]; intros g H.
  - cbn in H. discriminate.
  - rewrite youtube_re_search_cons in H.
    destruct (Youtube.match_at (a :: url)) as [g0 | ] eqn:E.
    + injection H as ->. apply youtube_match_at_iff in E.
      destruct E as [Hne [Hamp [post [E Hp]]]].
      split; [exact Hne | ]. split; [exact Hamp | ].
      exists [], post. split; [exact E | ]. split; [exact Hp | ].
      intros; cbn; lia.
    + destruct (IH g H) as [Hne [Hamp [pre [post [E' [Hp Hl]]]]]].
      split; [exact Hne | ]. split; [exact Hamp | ].
      exists (a :: pre), post. split; [cbn; rewrite E'; reflexivity | ].
      split; [exact Hp | ].
      intros pre' c post' Eu Hc. destruct pre' as [| a' pre'].
      * cbn [app] in Eu. exfalso. apply Hc.
        apply (proj1 (youtube_match_at_none (a :: url)) E c post'). exact Eu.
      * cbn in Eu. injection Eu as -> Eu. cbn. apply le_n_S.
        apply (Hl pre' c post' Eu Hc).
Qed.

Lemma youtube_extract_none_iff (url : str) :
  Youtube.extract_video_id url = None <->
  forall pre c post, url = pre ++ lit "v=" ++ c :: post ->
                     c = Youtube.AMPERSAND.
Proof.
  unfold Youtube.extract_video_id.
  induction url as [| a url IH].
  - split; [ | reflexivity]. intros _ pre c post E.
    destruct pre; discriminate.
  - rewrite youtube_re_search_cons.
    destruct (Youtube.match_at (a :: url)) as [g0 | ] eqn:E.
    + split; [discriminate | ]. intros H. exfalso.
      apply youtube_match_at_iff in E.
      destruct E as [Hne [Hamp [post [E _]]]].
      destruct g0 as [| c g0]; [congruence | ].
      apply Hamp. left. apply (H [] c (g0 ++ post)). exact E.
    + rewrite IH. split.
      * intros H pre c post Eu. destruct pre as [| a' pre].
        -- apply (proj1 (youtube_match_at_none (a :: url)) E c post). exact Eu.
        -- cbn in Eu. injection Eu as -> Eu. apply (H pre c post Eu).
      * intros H pre c post Eu. apply (H (a :: pre) c post).
        cbn. rewrite Eu. reflexivity.
Qed.

(** X22. The extractor of [utils/youtube.py] returns the characters that
    follow the leftmost [v=] that is followed by something other than an
    ampersand, up to the next ampersand or the end: a non-empty string
    without ampersand, of any length and of any characters.  It returns
    [None] exactly when every [v=] of the URL is followed by an ampersand
    or by nothing. *)
Theorem youtube_extract_spec (url : str) :
  (forall g, Youtube.extract_video_id url = Some g ->
     g <> [] /\ ~ In Youtube.AMPERSAND g
     /\ exists pre post,
          url = pre ++ lit "v=" ++ g ++ post
          /\ match post with [] => True | c :: _ => c = Youtube.AMPERSAND end
          /\ forall pre' c post',
               url = pre' ++ lit "v=" ++ c :: post' -> c <> Youtube.AMPERSAND ->
               (List.length pre <= List.length pre')%nat)
  /\ (Youtube.extract_video_id url = None <->
      forall pre c post, url = pre ++ lit "v=" ++ c :: post ->
                         c = Youtube.AMPERSAND).
Proof.
  split; [apply youtube_extract_some | apply youtube_extract_none_iff].
Qed.

Lemma youtube_extract_spec_witness :
  lit "abc" <> [] /\ ~ In Youtube.AMPERSAND (lit "abc").
Proof.
  destruct (proj1 (youtube_extract_spec (lit "https://example.org/?v=abc&x=1"))
              (lit "abc") eq_refl) as [A [B _]].
  split; [exact A | exact B].
Defined.

Lemma token_no_char (c : char) (t : str) :
  id_char c = false -> is_token t = true -> ~ In c t.
Proof.
  intros Hc Ht Hin. unfold is_token in Ht. apply andb_true_iff in Ht.
  destruct Ht as [_ Ht]. rewrite forallb_forall in Ht.
  rewrite (Ht c Hin) in Hc. discriminate.
Qed.

Lemma no_v_parameter_without_equals (url : str) :
  ~ In 61%N url -> Youtube.extract_video_id url = None.
Proof.
  intros H. apply youtube_extract_none_iff. intros pre c post E.
  exfalso. apply H. rewrite E. apply in_or_app. right. right. left. reflexivity.
Qed.

Lemma no_equals_in (prefix : str) (t : str) :
  forallb (fun c => negb (N.eqb c 61)) prefix = true ->
  is_token t = true -> ~ In 61%N (prefix ++ t).
Proof.
  intros Hp Ht Hin. apply in_app_or in Hin. destruct Hin as [Hin | Hin].
  - rewrite forallb_forall in Hp. specialize (Hp _ Hin). discriminate.
  - exact (token_no_char 61%N t eq_refl Ht Hin).
Qed.

(** X23. The two extractors agree on a watch URL (an identifier of eleven
    characters, then the end or an ampersand): both return the
    identifier.  On a short URL and on an embed URL the extractor of
    [app.py] returns the identifier while the one of [utils/youtube.py]
    returns [None]. *)
Theorem extractors_compared (t post : str) :
  is_token t = true ->
  match post with [] => True | c :: _ => c = Youtube.AMPERSAND end ->
  (Youtube.extract_video_id (WATCH_PREFIX ++ t ++ post) = Some t
   /\ extract_video_id (WATCH_PREFIX ++ t ++ post) = Some t)
  /\ (Youtube.extract_video_id (SHORT_PREFIX ++ t) = None
      /\ extract_video_id (SHORT_PREFIX ++ t) = Some t)
  /\ (Youtube.extract_video_id (EMBED_PREFIX ++ t) = None
      /\ extract_video_id (EMBED_PREFIX ++ t) = Some t).
Proof.
  intros Ht Hpost.
  destruct (extract_three_shapes t Ht) as [_ [S E]].
  split; [split | split; split].
  - unfold Youtube.extract_video_id. expose WATCH_PREFIX.
    repeat (rewrite youtube_re_search_skip by reflexivity).
    rewrite youtube_re_search_cons.
    change (118%N :: 61%N :: t ++ post) with (lit "v=" ++ t ++ post).
    assert (M : Youtube.match_at (lit "v=" ++ t ++ post) = Some t).
    { apply youtube_match_at_iff. split.
      - destruct t; [discriminate Ht | discriminate].
      - split; [apply (token_no_char Youtube.AMPERSAND t eq_refl Ht) | ].
        exists post. split; [reflexivity | exact Hpost]. }
    rewrite M. reflexivity.
  - rewrite extract_video_id_unfold, (search_v_watch_suffix t post Ht).
    reflexivity.
  - apply no_v_parameter_without_equals. apply no_equals_in; [reflexivity | exact Ht].
  - exact S.
  - apply no_v_parameter_without_equals. apply no_equals_in; [reflexivity | exact Ht].
  - exact E.
Qed.

Lemma extractors_compared_witness :
  Youtube.extract_video_id (lit "https://www.youtube.com/watch?v=dQw4w9WgXcQ&t=42s")
  = Some (lit "dQw4w9WgXcQ")
  /\ Youtube.extract_video_id (lit "https://youtu.be/dQw4w9WgXcQ") = None.
Proof.
  destruct (extractors_compared (lit "dQw4w9WgXcQ") (lit "&t=42s") eq_refl eq_refl)
    as [[A _] [[B _] _]].
  split; [exact A | exact B].
Defined.

Lemma texts_of_all (tr : transcript) :
  (forall e, In e tr -> entry_text e <> None) ->
  Youtube.texts_of tr = Return (List.map text_of tr).
Proof.
  induction tr as [| e tr IH]; intros H; [reflexivity | ].
  cbn [Youtube.texts_of List.map]. unfold text_of at 1.
  destruct (entry_text e) as [x | ] eqn:E.
  - rewrite IH; [reflexivity | ]. intros e' He'. apply H. right. exact He'.
  - exfalso. apply (H e (or_introl eq_refl)). exact E.
Qed.

Lemma texts_of_missing (tr : transcript) (e : exn) :
  Youtube.texts_of tr = Raise e ->
  e = Exn (OtherException "KeyError") (quoted TEXT)
  /\ exists entry, In entry tr /\ entry_text entry = None.
Proof.
  induction tr as [| a tr IH]; cbn [Youtube.texts_of]; [discriminate | ].
  destruct (entry_text a) as [x | ] eqn:E.
  - destruct (Youtube.texts_of tr) as [xs | e']; cbn; [discriminate | ].
    intros H. injection H as <-. destruct (IH eq_refl) as [A [entry [B C]]].
    split; [exact A | ]. exists entry. split; [right; exact B | exact C].
  - intros H. injection H as <-. split; [reflexivity | ].
    exists a. split; [left; reflexivity | exact E].
Qed.

(** X24. [get_transcript] of [utils/youtube.py] never raises and returns
    a string.  Without an identifier in the URL it returns
    ["Invalid YouTube URL"] and calls nothing; otherwise it makes the one
    English call (no Hindi retrieval) and returns the texts joined by
    spaces, untrimmed, when every entry has a text, and
    ["Error fetching transcript: "] followed by the text of the exception
    when the call raises, [TranscriptsDisabled] included. *)
Theorem youtube_get_transcript_spec (w : world) (url : str) (log : list event) :
  (Youtube.extract_video_id url = None ->
   Youtube.get_transcript w url log = (Return (lit "Invalid YouTube URL"), log))
  /\ (forall vid, Youtube.extract_video_id url = Some vid ->
      (forall tr, api_get_transcript w vid [lit "en"] = Return tr ->
                  (forall e, In e tr -> entry_text e <> None) ->
         Youtube.get_transcript w url log
         = (Return (join [SPACE] (List.map text_of tr)),
            log ++ [GetTranscript vid [lit "en"]]))
      /\ (forall e, api_get_transcript w vid [lit "en"] = Raise e ->
         Youtube.get_transcript w url log
         = (Return (lit "Error fetching transcript: " ++ exn_str e),
            log ++ [GetTranscript vid [lit "en"]]))
      /\ exists s, Youtube.get_transcript w url log
                   = (Return s, log ++ [GetTranscript vid [lit "en"]])).
Proof.
  unfold Youtube.get_transcript. split.
  - intros ->. reflexivity.
  - intros vid Hvid. rewrite Hvid.
    destruct (youtube_extract_some url vid Hvid) as [Hne _].
    destruct vid as [| c vid]; [congruence | ].
    unfold try_except, bind, call.
    split; [ | split].
    + intros tr Htr Hall. rewrite Htr, (texts_of_all tr Hall). reflexivity.
    + intros e He. rewrite He. reflexivity.
    + destruct (api_get_transcript w (c :: vid) [lit "en"]) as [tr | e].
      * destruct (Youtube.texts_of tr); eexists; reflexivity.
      * eexists; reflexivity.
Qed.

Lemma youtube_get_transcript_spec_witness :
  Youtube.get_transcript world_hindi (lit "https://youtu.be/dQw4w9WgXcQ") []
  = (Return (lit "Invalid YouTube URL"), [])
  /\ Youtube.get_transcript world_disabled WATCH_URL []
     = (Return (lit "Error fetching transcript: Subtitles are disabled for this video"),
        [GetTranscript VIDEO [lit "en"]])
  /\ Youtube.get_transcript world_api_down WATCH_URL []
     = (Return (lit "never gonna give you up never gonna let you down"),
        [GetTranscript VIDEO [lit "en"]]).
Proof.
  split; [ | split].
  - apply (proj1 (youtube_get_transcript_spec world_hindi
                    (lit "https://youtu.be/dQw4w9WgXcQ") [])).
    reflexivity.
  - apply (proj1 (proj2 (proj2 (youtube_get_transcript_spec world_disabled
                                  WATCH_URL []) VIDEO eq_refl)) disabled).
    reflexivity.
  - apply (proj1 (proj2 (youtube_get_transcript_spec world_api_down
                           WATCH_URL []) VIDEO eq_refl) english_entries).
    + reflexivity.
    + intros e [<- | [<- | []]]; discriminate.
Defined.

(** X25. In [get_transcript] of [utils/youtube.py] one entry without a
    text spoils the whole result: the function then returns
    ["Error fetching transcript: 'text'"], where the endpoint of [app.py]
    takes the empty string for that entry. *)
Theorem youtube_missing_text (w : world) (url vid : str) (log : list event)
    (tr : transcript) (entry : entry) :
  Youtube.extract_video_id url = Some vid ->
  api_get_transcript w vid [lit "en"] = Return tr ->
  In entry tr -> entry_text entry = None ->
  Youtube.get_transcript w url log
  = (Return (lit "Error fetching transcript: 'text'"),
     log ++ [GetTranscript vid [lit "en"]])
  /\ text_of entry = [].
Proof.
  intros Hvid Htr Hin Hnone. split; [ | unfold text_of; rewrite Hnone; reflexivity].
  unfold Youtube.get_transcript. rewrite Hvid.
  destruct (youtube_extract_some url vid Hvid) as [Hne _].
  destruct vid as [| c vid]; [congruence | ].
  unfold try_except, bind, call. rewrite Htr.
  destruct (Youtube.texts_of tr) as [texts | e] eqn:E.
  - exfalso. clear Htr. revert texts E. induction tr as [| a tr IH]; [destruct Hin | ].
    intros texts E. cbn [Youtube.texts_of] in E.
    destruct Hin as [-> | Hin].
    + rewrite Hnone in E. discriminate.
    + destruct (entry_text a); [ | discriminate].
      destruct (Youtube.texts_of tr) as [xs | ]; [ | discriminate].
      apply (IH Hin xs). reflexivity.
  - destruct (texts_of_missing tr e E) as [-> _]. reflexivity.
Qed.

Lemma youtube_missing_text_witness :
  Youtube.get_transcript
    (World None (fun _ _ => Return [Entry (Some (lit "one")); Entry None])
           (fun _ => Raise disabled) (fun _ => UnexpectedStructure)
           (fun _ => Return []))
    WATCH_URL []
  = (Return (lit "Error fetching transcript: 'text'"),
     [GetTranscript VIDEO [lit "en"]]).
Proof.
  apply (youtube_missing_text
           (World None (fun _ _ => Return [Entry (Some (lit "one")); Entry None])
                  (fun _ => Raise disabled) (fun _ => UnexpectedStructure)
                  (fun _ => Return []))
           WATCH_URL VIDEO [] [Entry (Some (lit "one")); Entry None] (Entry None)).
  - reflexivity.
  - reflexivity.
  - right. left. reflexivity.
  - reflexivity.
Defined.

(* ===================================================================== *)
(** * [utils/summarizer.py] *)
(* ===================================================================== *)

(** X26. [summarize_text] sends one user message that holds the text
    between a fixed heading and ["Summary:"], and returns the content of
    the first choice with the whitespace at both ends removed, whatever
    the other choices are; nothing is caught, so an exception of the API
    reaches the caller as it is. *)
Theorem summarize_text_spec (create : Summarizer.chat_api) (text : str) :
  (forall e, create (Summarizer.request_of text) = Raise e ->
             Summarizer.summarize_text create text = Raise e)
  /\ (forall content more,
        create (Summarizer.request_of text) = Return (Some content :: more) ->
        Summarizer.summarize_text create text = Return (strip content)
        /\ (forall c, hd_error (strip content) = Some c -> is_space c = false)
        /\ (forall c, hd_error (rev (strip content)) = Some c ->
                      is_space c = false))
  /\ exists heading footer,
       Summarizer.messages (Summarizer.request_of text)
       = [(lit "user", heading ++ text ++ footer)]
       /\ heading = lit "Summarize the following YouTube transcript:" ++ [LF; LF]
       /\ footer = [LF; LF] ++ lit "Summary:".
Proof.
  split; [ | split].
  - intros e H. unfold Summarizer.summarize_text. rewrite H. reflexivity.
  - intros content more H. unfold Summarizer.summarize_text. rewrite H.
    split; [reflexivity | ]. split.
    + intros c. apply strip_head_not_space.
    + intros c. apply strip_last_not_space.
  - eexists _, _. split; [ | split; reflexivity].
    cbn [Summarizer.request_of Summarizer.messages Summarizer.prompt_of].
    repeat rewrite <- app_assoc. reflexivity.
Qed.

Lemma summarize_text_spec_witness :
  Summarizer.summarize_text
    (fun _ => Return [Some ([LF] ++ lit "  A summary. " ++ [LF]); Some (lit "other")])
    (lit "some text")
  = Return (lit "A summary.").
Proof.
  apply (proj1 (proj1 (proj2 (summarize_text_spec
           (fun _ => Return [Some ([LF] ++ lit "  A summary. " ++ [LF]);
                             Some (lit "other")])
           (lit "some text")))
           ([LF] ++ lit "  A summary. " ++ [LF]) [Some (lit "other")] eq_refl)).
Defined.
